(** * Hyperfine-tensor extraction and effective-field synthesis

    A shallow embedding of [get_hyperfine] from [Muon-site-summary.ipynb]:
    the function scans a VASP OUTCAR report for the total-spin line, the
    Fermi-contact table and the dipolar table, and turns the tensor of one
    site into an effective field, its magnitude and its angle to the c axis.

    Modelling conventions.
    - The open file [f] is the list of the lines not yet read; both the
      [for line in f] loop and the calls [next(f)] consume from that list.
    - Python exceptions are values of [exn]; a computation returns
      [Ok v] or [Raise e].
    - A numpy [float64] is an extended real: a real number, an infinity or
      NaN.  Finite arithmetic is exact real arithmetic (no rounding,
      overflow, underflow or signed zero); the special values follow
      IEEE 754 as numpy does with its default error state ([warn], which
      returns the special value instead of raising).
    - A line is a [string] of code points below 256. *)

From Stdlib Require Import Reals Lra Lia ZArith List String Ascii Bool.
Import ListNotations.

Set Implicit Arguments.

(* ------------------------------------------------------------------ *)
(** ** Exceptions and the error monad *)

Inductive exn : Type :=
| StopIteration   (* next(f) on an exhausted file *)
| ValueError      (* float(...) of a token that is not a number *)
| IndexError      (* an index out of range *)
| OverflowError.  (* an index that does not fit numpy's index type *)

Inductive result (A : Type) : Type :=
| Ok (a : A)
| Raise (e : exn).

Arguments Raise {A} e.

Definition bind {A B : Type} (m : result A) (k : A -> result B) : result B :=
  match m with
  | Ok a => k a
  | Raise e => Raise e
  end.

Notation "x <- m ;; k" := (bind m (fun x => k))
  (at level 61, m at next level, right associativity).
Notation "' p <- m ;; k" := (bind m (fun x => let p := x in k))
  (at level 61, p pattern, m at next level, right associativity).

Definition is_ok {A : Type} (m : result A) : bool :=
  match m with Ok _ => true | Raise _ => false end.

(* ------------------------------------------------------------------ *)
(** ** float64 values *)

Module F64.

Local Open Scope R_scope.

Inductive f64 : Type :=
| Fin (r : R)
| PInf
| NInf
| NaN.

Definition zero : f64 := Fin 0.

Definition is_nan (a : f64) : bool :=
  match a with NaN => true | _ => false end.

(** Sign of a real, used to give infinities their sign. *)
Inductive sgn : Type := Neg | Zer | Pos.

Definition Rsgn (x : R) : sgn :=
  if Rlt_dec 0 x then Pos else if Rlt_dec x 0 then Neg else Zer.

Definition inf_of (s : sgn) : f64 :=
  match s with Pos => PInf | Neg => NInf | Zer => NaN end.

Definition sgn_opp (s : sgn) : sgn :=
  match s with Pos => Neg | Neg => Pos | Zer => Zer end.

Definition neg (a : f64) : f64 :=
  match a with
  | Fin x => Fin (- x)
  | PInf => NInf
  | NInf => PInf
  | NaN => NaN
  end.

Definition add (a b : f64) : f64 :=
  match a, b with
  | NaN, _ | _, NaN => NaN
  | Fin x, Fin y => Fin (x + y)
  | PInf, NInf | NInf, PInf => NaN
  | PInf, _ | _, PInf => PInf
  | NInf, _ | _, NInf => NInf
  end.

Definition sub (a b : f64) : f64 := add a (neg b).

Definition mul (a b : f64) : f64 :=
  match a, b with
  | NaN, _ | _, NaN => NaN
  | Fin x, Fin y => Fin (x * y)
  | PInf, Fin y | Fin y, PInf => inf_of (Rsgn y)
  | NInf, Fin y | Fin y, NInf => inf_of (sgn_opp (Rsgn y))
  | PInf, PInf | NInf, NInf => PInf
  | PInf, NInf | NInf, PInf => NInf
  end.

(** Division; a zero divisor is taken as [+0.0]. *)
Definition div (a b : f64) : f64 :=
  match a, b with
  | NaN, _ | _, NaN => NaN
  | Fin x, Fin y =>
      if Req_dec_T y 0 then inf_of (Rsgn x) else Fin (x / y)
  | Fin _, (PInf | NInf) => Fin 0
  | PInf, Fin y => if Rlt_dec y 0 then NInf else PInf
  | NInf, Fin y => if Rlt_dec y 0 then PInf else NInf
  | (PInf | NInf), (PInf | NInf) => NaN
  end.

(** [np.sqrt] *)
Definition sqrt (a : f64) : f64 :=
  match a with
  | Fin x => if Rle_dec 0 x then Fin (R_sqrt.sqrt x) else NaN
  | PInf => PInf
  | NInf | NaN => NaN
  end.

(** [np.arccos]: NaN outside [-1, 1]. *)
Definition arccos (a : f64) : f64 :=
  match a with
  | Fin x =>
      if Rle_dec (-1) x then
        if Rle_dec x 1 then Fin (acos x) else NaN
      else NaN
  | _ => NaN
  end.

(** [a > b]; false as soon as one side is NaN. *)
Definition gt (a b : f64) : bool :=
  match a, b with
  | NaN, _ | _, NaN => false
  | Fin x, Fin y => if Rlt_dec y x then true else false
  | PInf, (Fin _ | NInf) => true
  | Fin _, NInf => true
  | _, _ => false
  end.

(** [a <= b] as a proposition; false as soon as one side is NaN. *)
Definition le (a b : f64) : Prop :=
  match a, b with
  | NaN, _ | _, NaN => False
  | Fin x, Fin y => x <= y
  | NInf, _ | _, PInf => True
  | _, _ => False
  end.

(** [np.pi] *)
Definition pi : f64 := Fin PI.

End F64.

Import F64.

(* ------------------------------------------------------------------ *)
(** ** Strings: [str.split()] and [re.search] of a literal pattern *)

(** [str.isspace] on one code point below 256: tab, newline, vertical
    tab, form feed, carriage return, the separators 0x1c..0x1f, space,
    NEL (0x85) and the no-break space (0xa0). *)
Definition is_space (c : ascii) : bool :=
  let n := nat_of_ascii c in
  ((9 <=? n) && (n <=? 13)) || ((28 <=? n) && (n <=? 32))
  || (n =? 133) || (n =? 160).

(** [split_aux cur s]: [cur] is the token being read, reversed. *)
Fixpoint split_aux (cur : list ascii) (s : string) : list string :=
  let flush := match cur with
               | [] => []
               | _ :: _ => [string_of_list_ascii (rev cur)]
               end in
  match s with
  | EmptyString => flush
  | String c s' =>
      if is_space c then flush ++ split_aux [] s'
      else split_aux (c :: cur) s'
  end.

(** [line.split()]: the maximal runs of non-whitespace characters. *)
Definition split (line : string) : list string := split_aux [] line.

(** [re.compile(pat).search(line)] for a pattern without metacharacters:
    [pat] occurs somewhere in [line]. *)
Fixpoint search (pat line : string) : bool :=
  prefix pat line ||
  match line with
  | EmptyString => false
  | String _ rest => search pat rest
  end.

Definition re_totalspin : string -> bool :=
  search "Total magnetic moment S".

(** The pattern escapes its parentheses, so it matches them literally. *)
Definition re_contact : string -> bool :=
  search "Fermi contact (isotropic) hyperfine coupling parameter (MHz)".

Definition re_dipole : string -> bool :=
  search "Dipolar hyperfine coupling parameters (MHz)".

(* ------------------------------------------------------------------ *)
(** ** Sequences *)

(** [l[-1]] *)
Definition last_item {A : Type} (l : list A) : result A :=
  match rev l with
  | [] => Raise IndexError
  | a :: _ => Ok a
  end.

(** [l[k]] for a literal index [k >= 0] *)
Definition item {A : Type} (l : list A) (k : nat) : result A :=
  match nth_error l k with
  | Some a => Ok a
  | None => Raise IndexError
  end.

(** numpy's index type [intp]: a signed 64-bit integer. *)
Definition fits_intp (i : Z) : bool :=
  ((- 2 ^ 63 <=? i) && (i <? 2 ^ 63))%Z.

(** [a[i]] on a numpy array for a Python integer [i]: a negative index
    counts from the end.  numpy converts [i] to [intp] first and raises
    [OverflowError] when it does not fit, then [IndexError] when it is out
    of range.  An array has fewer than [2^63] entries, so an index in
    range always fits, and the range is tested first here. *)
Definition getitem {A : Type} (l : list A) (i : Z) : result A :=
  let n := Z.of_nat (List.length l) in
  let j := if (i <? 0)%Z then (i + n)%Z else i in
  if ((j <? 0) || (n <=? j))%Z then
    Raise (if fits_intp i then IndexError else OverflowError)
  else item l (Z.to_nat j).

(** [l[i] = v] for [i] in range; out of range the list is unchanged
    (the program only writes at [i < natoms = len(l)]). *)
Fixpoint setitem {A : Type} (l : list A) (i : nat) (v : A) : list A :=
  match l, i with
  | [], _ => []
  | _ :: l', O => v :: l'
  | a :: l', S i' => a :: setitem l' i' v
  end.

(** [next(f)] on the file iterator. *)
Definition next (f : list string) : result (string * list string) :=
  match f with
  | [] => Raise StopIteration
  | line :: f' => Ok (line, f')
  end.

(** [mapM]: convert every element, failing at the first failure. *)
Fixpoint traverse {A B : Type} (g : A -> result B) (l : list A)
  : result (list B) :=
  match l with
  | [] => Ok []
  | a :: l' => b <- g a ;; bs <- traverse g l' ;; Ok (b :: bs)
  end.

(* ------------------------------------------------------------------ *)
(** ** Vectors and 3x3 tensors *)

Record vec3 : Type := Vec { v0 : f64; v1 : f64; v2 : f64 }.

Record mat3 : Type := Mat { row0 : vec3; row1 : vec3; row2 : vec3 }.

Definition vget (v : vec3) (j : nat) : f64 :=
  match j with 0 => v0 v | 1 => v1 v | _ => v2 v end.

Definition vset (v : vec3) (j : nat) (x : f64) : vec3 :=
  match j with
  | 0 => Vec x (v1 v) (v2 v)
  | 1 => Vec (v0 v) x (v2 v)
  | _ => Vec (v0 v) (v1 v) x
  end.

(** [m[i]] *)
Definition mrow (m : mat3) (i : nat) : vec3 :=
  match i with 0 => row0 m | 1 => row1 m | _ => row2 m end.

(** [m[i][j]] *)
Definition mget (m : mat3) (i j : nat) : f64 := vget (mrow m i) j.

(** [m[i][j] = x] *)
Definition mset (m : mat3) (i j : nat) (x : f64) : mat3 :=
  match i with
  | 0 => Mat (vset (row0 m) j x) (row1 m) (row2 m)
  | 1 => Mat (row0 m) (vset (row1 m) j x) (row2 m)
  | _ => Mat (row0 m) (row1 m) (vset (row2 m) j x)
  end.

Definition vmap (g : f64 -> f64) (v : vec3) : vec3 :=
  Vec (g (v0 v)) (g (v1 v)) (g (v2 v)).

Definition mmap (g : f64 -> f64) (m : mat3) : mat3 :=
  Mat (vmap g (row0 m)) (vmap g (row1 m)) (vmap g (row2 m)).

Definition vzip (g : f64 -> f64 -> f64) (u v : vec3) : vec3 :=
  Vec (g (v0 u) (v0 v)) (g (v1 u) (v1 v)) (g (v2 u) (v2 v)).

Definition mzip (g : f64 -> f64 -> f64) (m n : mat3) : mat3 :=
  Mat (vzip g (row0 m) (row0 n)) (vzip g (row1 m) (row1 n))
      (vzip g (row2 m) (row2 n)).

Definition vzero : vec3 := Vec zero zero zero.

(** [np.zeros((3, 3))] *)
Definition mzero : mat3 := Mat vzero vzero vzero.

(** [np.eye(3)] *)
Definition eye3 : mat3 :=
  Mat (Vec (Fin 1) (Fin 0) (Fin 0))
      (Vec (Fin 0) (Fin 1) (Fin 0))
      (Vec (Fin 0) (Fin 0) (Fin 1)).

(** [u.dot(v)] *)
Definition dot (u v : vec3) : f64 :=
  add (add (mul (v0 u) (v0 v)) (mul (v1 u) (v1 v))) (mul (v2 u) (v2 v)).

(** [np.linalg.norm(v)] of a real vector: [sqrt(dot(v, v))]. *)
Definition norm (v : vec3) : f64 := F64.sqrt (dot v v).

Definition symmetric (m : mat3) : Prop :=
  forall i j : nat, (i < 3)%nat -> (j < 3)%nat -> mget m i j = mget m j i.

(* ------------------------------------------------------------------ *)
(** ** The extractor: the [with open(outcar) as f] block *)

(** The arrays filled while scanning, and the local [totalS], which is
    unbound until the total-spin line is met. *)
Record scan_state : Type := State {
  contacts : list f64;
  dipole_tensors : list mat3;
  totalS : option f64
}.

Section Extractor.

(** Python's [float(token)]; [None] stands for [ValueError].  numpy's
    [astype(float)] on an array of strings converts each element with the
    same function. *)
Variable pyfloat : string -> option f64.

Variable natoms : nat.

Definition float (tok : string) : result f64 :=
  match pyfloat tok with
  | Some a => Ok a
  | None => Raise ValueError
  end.

(** [if re_totalspin.search(line): totalS = float(line.split()[-1])] *)
Definition on_totalspin (line : string) (st : scan_state)
  : result scan_state :=
  if re_totalspin line then
    tok <- last_item (split line) ;;
    s <- float tok ;;
    Ok (State (contacts st) (dipole_tensors st) (Some s))
  else Ok st.

(** [float(row.split()[-1])]: the last column, [A_tot]. *)
Definition contact_value (row : string) : result f64 :=
  tok <- last_item (split row) ;;
  float tok.

(** [for i in range(natoms): contacts[i] = float(next(f).split()[-1])];
    [n] iterations are left and the next index is [i]. *)
Fixpoint contact_rows (n i : nat) (f : list string) (cs : list f64)
  : result (list string * list f64) :=
  match n with
  | O => Ok (f, cs)
  | S n' =>
      '(row, f) <- next f ;;
      A_tot <- contact_value row ;;
      contact_rows n' (S i) f (setitem cs i A_tot)
  end.

(** The three [next(f)] after a header: rule, column titles, rule. *)
Definition skip_header (f : list string) : result (list string) :=
  '(_, f) <- next f ;;
  '(_, f) <- next f ;;
  '(_, f) <- next f ;;
  Ok f.

Definition on_contact (line : string) (f : list string) (st : scan_state)
  : result (list string * scan_state) :=
  if re_contact line then
    f <- skip_header f ;;
    '(f, cs) <- contact_rows natoms 0 f (contacts st) ;;
    Ok (f, State cs (dipole_tensors st) (totalS st))
  else Ok (f, st).

(** The nine assignments into [dipole_tensors[i]] from the row [A_dip]. *)
Definition fill_tensor (A_dip : list f64) (t : mat3) : result mat3 :=
  (* diagonal *)
  a <- item A_dip 1 ;; let t := mset t 0 0 a in
  a <- item A_dip 2 ;; let t := mset t 1 1 a in
  a <- item A_dip 3 ;; let t := mset t 2 2 a in
  (* off-diagonal *)
  a <- item A_dip 4 ;; let t := mset t 0 1 a in
  a <- item A_dip 4 ;; let t := mset t 1 0 a in
  a <- item A_dip 5 ;; let t := mset t 0 2 a in
  a <- item A_dip 5 ;; let t := mset t 2 0 a in
  a <- item A_dip 6 ;; let t := mset t 1 2 a in
  a <- item A_dip 6 ;; let t := mset t 2 1 a in
  Ok t.

(** [A_dip = np.array(row.split()).astype(float)], then the assignments
    into the tensor [t] of the site. *)
Definition row_tensor (row : string) (t : mat3) : result mat3 :=
  A_dip <- traverse float (split row) ;;
  fill_tensor A_dip t.

(** [for i in range(natoms)] of the dipolar table; [n] iterations are
    left and the next index is [i]. *)
Fixpoint dipole_rows (n i : nat) (f : list string) (ds : list mat3)
  : result (list string * list mat3) :=
  match n with
  | O => Ok (f, ds)
  | S n' =>
      '(row, f) <- next f ;;
      t <- row_tensor row (nth i ds mzero) ;;
      dipole_rows n' (S i) f (setitem ds i t)
  end.

Definition on_dipole (line : string) (f : list string) (st : scan_state)
  : result (list string * scan_state) :=
  if re_dipole line then
    f <- skip_header f ;;
    '(f, ds) <- dipole_rows natoms 0 f (dipole_tensors st) ;;
    Ok (f, State (contacts st) ds (totalS st))
  else Ok (f, st).

(** One iteration of [for line in f]: the three [if] statements test
    the same [line]; [f] holds the lines after it. *)
Definition loop_body (line : string) (f : list string) (st : scan_state)
  : result (list string * scan_state) :=
  st <- on_totalspin line st ;;
  '(f, st) <- on_contact line f st ;;
  on_dipole line f st.

(** [for line in f: ...] with a bound on the number of iterations;
    [None] when the bound is too small. *)
Fixpoint scan (fuel : nat) (f : list string) (st : scan_state)
  : option (result scan_state) :=
  match f with
  | [] => Some (Ok st)
  | line :: f' =>
      match fuel with
      | O => None
      | S fuel' =>
          match loop_body line f' st with
          | Ok (f'', st') => scan fuel' f'' st'
          | Raise e => Some (Raise e)
          end
      end
  end.

(** The loop itself.  Every iteration reads at least one line, so
    [length f] iterations are enough ([scan_enough] below) and the
    default branch is never taken. *)
Definition for_line_in_f (f : list string) (st : scan_state)
  : result scan_state :=
  match scan (List.length f) f st with
  | Some r => r
  | None => Raise StopIteration
  end.

(** [contacts = np.zeros(natoms)], [dipole_tensors = np.zeros((natoms, 3, 3))] *)
Definition initial_state : scan_state :=
  State (repeat zero natoms) (repeat mzero natoms) None.

(** The whole [with] block on the lines of the file. *)
Definition extract (outcar : list string) : result scan_state :=
  for_line_in_f outcar initial_state.

End Extractor.

(* ------------------------------------------------------------------ *)
(** ** The synthesizer: the code after the [with] block *)

(** The dictionary [res]. *)
Record hyperfine : Type := Res {
  A_c : f64;
  A_dip : mat3;
  A : mat3;
  Bfield : vec3;
  B_magnitude : f64;
  theta : f64
}.

(** [gamma_mu = 851.616 / (2*np.pi)], in MHz/T *)
Definition gamma_mu : f64 := div (Fin 851.616) (mul (Fin 2) pi).

(** [z = np.array([0,0,1])] *)
Definition z_axis : vec3 := Vec (Fin 0) (Fin 0) (Fin 1).

(** [if theta > 90: theta = 180 - theta] *)
Definition fold_angle (th : f64) : f64 :=
  if gt th (Fin 90) then sub (Fin 180) th else th.

Definition synthesize (gamma : f64) (cs : list f64) (ds : list mat3)
  (muon_index : Z) : result hyperfine :=
  c <- getitem cs muon_index ;;
  let a_c := mul c gamma in
  d <- getitem ds muon_index ;;
  let a_dip := mmap (fun x => mul x gamma) d in
  let a := mzip add a_dip (mmap (fun e => mul e a_c) eye3) in
  let bfield := vmap (mul (Fin 0.5)) (mrow a 2) in
  let b_magnitude := norm bfield in
  let th := div (mul (Fin 180) (arccos (div (dot bfield z_axis) b_magnitude)))
                pi in
  Ok (Res a_c a_dip a bfield b_magnitude (fold_angle th)).

(** [get_hyperfine(outcar, natoms, muon_index=-1)] on the lines of the
    file [outcar]. *)
Definition get_hyperfine (pyfloat : string -> option f64)
  (outcar : list string) (natoms : nat) (muon_index : Z)
  : result hyperfine :=
  st <- extract pyfloat natoms outcar ;;
  synthesize gamma_mu (contacts st) (dipole_tensors st) muon_index.

(* ------------------------------------------------------------------ *)
(** ** A reading of decimal literals, to run the extractor on reports

    [float_of_string] covers the tokens a report holds: an optional
    sign, then [inf], [infinity] or [nan] in any case, or decimal digits
    with an optional fraction and an optional exponent, read as the exact
    decimal value (no rounding to a double, no digit separators).  The
    theorems below hold for every conversion [pyfloat]; this one only
    instantiates them. *)

Module Decimal.

Local Open Scope Z_scope.

Definition digit (c : ascii) : option Z :=
  let n := Z.of_nat (nat_of_ascii c) in
  if (48 <=? n) && (n <=? 57) then Some (n - 48) else None.

(** [digits s acc k]: reads the leading digits of [s] into the number
    [acc], counting them in [k]; returns what follows them. *)
Fixpoint digits (s : string) (acc : Z) (k : nat) : Z * nat * string :=
  match s with
  | EmptyString => (acc, k, s)
  | String c s' =>
      match digit c with
      | Some d => digits s' (10 * acc + d) (S k)
      | None => (acc, k, s)
      end
  end.

Definition lower (c : ascii) : ascii :=
  let n := nat_of_ascii c in
  if ((65 <=? n) && (n <=? 90))%nat then ascii_of_nat (n + 32) else c.

Fixpoint lowercase (s : string) : string :=
  match s with
  | EmptyString => EmptyString
  | String c s' => String (lower c) (lowercase s')
  end.

(** An optional sign: [true] for a minus. *)
Definition sign (s : string) : bool * string :=
  match s with
  | String "-" s' => (true, s')
  | String "+" s' => (false, s')
  | _ => (false, s)
  end.

(** The real number [m * 10^e], in the form decimal literals have. *)
Definition scale10 (m e : Z) : R :=
  if e =? 0 then IZR m
  else if 0 <? e then (IZR m * IZR (10 ^ e))%R
  else Q2R (QArith_base.Qmake m (Z.to_pos (10 ^ (- e)))).

Definition float_of_string (tok : string) : option f64 :=
  let '(minus, s) := sign tok in
  let signed (m : Z) := if minus then - m else m in
  let low := lowercase s in
  if (low =? "inf")%string || (low =? "infinity")%string then
    Some (if minus then NInf else PInf)
  else if (low =? "nan")%string then Some NaN
  else
    let '(m, ki, s) := digits s 0 0 in
    let '(m, kf, s) :=
      match s with
      | String "." s' => digits s' m 0
      | _ => (m, 0%nat, s)
      end in
    if (ki + kf =? 0)%nat then None
    else
      match s with
      | EmptyString => Some (Fin (scale10 (signed m) (- Z.of_nat kf)))
      | String c s' =>
          if (lower c =? "e")%char then
            let '(eminus, s') := sign s' in
            let '(e, ke, rest) := digits s' 0 0 in
            match ke, rest with
            | S _, EmptyString =>
                Some (Fin (scale10 (signed m)
                             ((if eminus then - e else e) - Z.of_nat kf)))
            | _, _ => None
            end
          else None
      end.

End Decimal.

Import Decimal.

(* ------------------------------------------------------------------ *)
(** ** Vocabulary of the statements *)

(** [reaches pyfloat natoms f st f' st']: the loop started on the lines
    [f] in state [st] comes, after some iterations, to the head of the
    loop with the lines [f'] still unread and the state [st'].  A line is
    matched against the markers exactly when it is the first of such
    an [f']. *)
Inductive reaches (pyfloat : string -> option f64) (natoms : nat)
  : list string -> scan_state -> list string -> scan_state -> Prop :=
| reaches_here : forall f st, reaches pyfloat natoms f st f st
| reaches_next : forall line f st f1 st1 f2 st2,
    loop_body pyfloat natoms line f st = Ok (f1, st1) ->
    reaches pyfloat natoms f1 st1 f2 st2 ->
    reaches pyfloat natoms (line :: f) st f2 st2.

(** The scan of the report [outcar] meets [line] as the loop variable,
    with [rest] after it and the arrays as in [st]. *)
Definition meets (pyfloat : string -> option f64) (natoms : nat)
  (outcar : list string) (line : string) (rest : list string)
  (st : scan_state) : Prop :=
  reaches pyfloat natoms outcar (initial_state natoms) (line :: rest) st.

(** A line that is no table header. *)
Definition no_header (line : string) : Prop :=
  re_contact line = false /\ re_dipole line = false.

(** The shape every state of a scan has: arrays of [natoms] entries,
    symmetric tensors. *)
Definition well_formed (natoms : nat) (st : scan_state) : Prop :=
  List.length (contacts st) = natoms /\
  List.length (dipole_tensors st) = natoms /\
  Forall symmetric (dipole_tensors st).

(** Where a tensor of the array comes from: it is still the zero it was
    created with, or it is the tensor of a line of the report. *)
Definition from_report (pyfloat : string -> option f64)
  (outcar : list string) (t : mat3) : Prop :=
  t = mzero \/
  exists row, In row outcar /\ row_tensor pyfloat row mzero = Ok t.

(** Two outcomes of a scan that agree on everything but [totalS]. *)
Definition same_arrays (r r' : result scan_state) : Prop :=
  match r, r' with
  | Ok s, Ok s' =>
      contacts s = contacts s' /\ dipole_tensors s = dipole_tensors s'
  | Raise e, Raise e' => e = e'
  | _, _ => False
  end.

(** A line that carries none of the three markers. *)
Definition no_marker (line : string) : Prop :=
  re_totalspin line = false /\ re_contact line = false /\
  re_dipole line = false.

(** A line outside the tables that the scan passes: no table header,
    and a number as last token if it carries the total-spin marker. *)
Definition plain_line (pyfloat : string -> option f64) (line : string)
  : Prop :=
  no_header line /\
  (re_totalspin line = true ->
   exists tok s, last_item (split line) = Ok tok /\ pyfloat tok = Some s).

(** A line whose total spin, if it carries the marker, can be read. *)
Definition spin_ok (pyfloat : string -> option f64) (line : string)
  : Prop :=
  re_totalspin line = true ->
  exists tok s, last_item (split line) = Ok tok /\ pyfloat tok = Some s.

(** A report that is well formed as far as the total spin and the
    Fermi-contact tables go: lines without the Fermi-contact header, and
    Fermi-contact headers each followed by three lines and [natoms] rows
    that end in a number.  [contact_layout pyfloat natoms outcar cs cs']
    also tells the contacts such a report leaves when the scan starts
    from the contacts [cs]: those of its last table, [cs] when it has
    none. *)
Inductive contact_layout (pyfloat : string -> option f64) (natoms : nat)
  : list string -> list f64 -> list f64 -> Prop :=
| layout_end : forall cs, contact_layout pyfloat natoms [] cs cs
| layout_line : forall line rest cs cs',
    re_contact line = false -> spin_ok pyfloat line ->
    contact_layout pyfloat natoms rest cs cs' ->
    contact_layout pyfloat natoms (line :: rest) cs cs'
| layout_table : forall hdr l1 l2 l3 rows rest vals cs cs',
    re_contact hdr = true -> spin_ok pyfloat hdr ->
    List.length rows = natoms ->
    traverse (fun row => tok <- last_item (split row) ;; float pyfloat tok)
             rows = Ok vals ->
    contact_layout pyfloat natoms rest vals cs' ->
    contact_layout pyfloat natoms
      (hdr :: l1 :: l2 :: l3 :: rows ++ rest) cs cs'.

(** The symmetric tensor of one dipolar row. *)
Definition tensor_of_row (xx yy zz xy xz yz : f64) : mat3 :=
  Mat (Vec xx xy xz) (Vec xy yy yz) (Vec xz yz zz).

(** [a] is finite and within [tol] of [x]. *)
Definition approx (a : f64) (x tol : R) : Prop :=
  match a with
  | Fin r => (Rabs (r - x) <= tol)%R
  | _ => False
  end.

(** The header handling in the wording "skip exactly two following
    lines", for comparison with [skip_header]. *)
Definition skip_two_lines (f : list string) : result (list string) :=
  '(_, f) <- next f ;;
  '(_, f) <- next f ;;
  Ok f.

Definition on_contact_two_skips (pyfloat : string -> option f64)
  (natoms : nat) (line : string) (f : list string) (st : scan_state)
  : result (list string * scan_state) :=
  if re_contact line then
    f <- skip_two_lines f ;;
    '(f, cs) <- contact_rows pyfloat natoms 0 f (contacts st) ;;
    Ok (f, State cs (dipole_tensors st) (totalS st))
  else Ok (f, st).

(* ------------------------------------------------------------------ *)
(** ** Sample reports

    Excerpts in the layout VASP prints with LHYPERFINE, for a cell of
    two sites; lines are written without their final newline, which
    neither [split] nor the markers look at. *)

Module Sample.

Local Open Scope string_scope.

Definition spin_line : string := " Total magnetic moment S=     2.0000000".

Definition contact_header : string :=
  " Fermi contact (isotropic) hyperfine coupling parameter (MHz)".

Definition dipole_header : string :=
  " Dipolar hyperfine coupling parameters (MHz)".

Definition rule : string := " -------------------------------------------------------------".

Definition contact_titles : string :=
  "  ion      A_pw      A_1PS     A_1AE     A_1c      A_tot".

Definition dipole_titles : string :=
  "  ion      A_xx      A_yy      A_zz      A_xy      A_xz      A_yz".

Definition contact_table : list string :=
  [ contact_header; rule; contact_titles; rule;
    "    1      -0.001    -0.002    -0.003     0.131     0.125";
    "    2      -0.500    -0.400    -0.300    -0.155    -1.355";
    rule ].

Definition dipole_table : list string :=
  [ dipole_header; rule; dipole_titles; rule;
    "    1       1.000     2.000    -3.000     0.500     0.250    -0.750";
    "    2     283.547   167.119  -450.667   -28.734   -15.587    58.553";
    rule ].

(** A complete report. *)
Definition outcar : list string :=
  [spin_line; ""] ++ contact_table ++ [""] ++ dipole_table ++ [""].

(** The same report with another total spin. *)
Definition outcar_spin3 : list string :=
  [" Total magnetic moment S=     3.0000000"; ""]
  ++ contact_table ++ [""] ++ dipole_table ++ [""].

(** A report without the dipolar table. *)
Definition outcar_contact_only : list string :=
  [spin_line; ""] ++ contact_table ++ [""].

(** A report that ends inside the Fermi-contact table. *)
Definition outcar_truncated : list string :=
  [ spin_line; ""; contact_header; rule; contact_titles; rule;
    "    1      -0.001    -0.002    -0.003     0.131     0.125" ].

(** A report whose dipolar rows name the second site by a label. *)
Definition outcar_labelled : list string :=
  [ dipole_header; rule; dipole_titles; rule;
    "    1       1.000     2.000    -3.000     0.500     0.250    -0.750";
    "   Mu     283.547   167.119  -450.667   -28.734   -15.587    58.553";
    rule ].

(** A report without any of the three markers. *)
Definition outcar_no_marker : list string :=
  [ " free  energy   TOTEN  =      -612.30616841 eV"; "" ].

(** The arrays of the complete report. *)
Definition contacts_expected : list f64 := [Fin 0.125; Fin (-1.355)].

Definition dipoles_expected : list mat3 :=
  [ tensor_of_row (Fin 1.000) (Fin 2.000) (Fin (-3.000))
                  (Fin 0.500) (Fin 0.250) (Fin (-0.750));
    tensor_of_row (Fin 283.547) (Fin 167.119) (Fin (-450.667))
                  (Fin (-28.734)) (Fin (-15.587)) (Fin 58.553) ].

End Sample.

(* ------------------------------------------------------------------ *)
(** * Properties of the extractor *)

Unset Implicit Arguments.

Lemma bind_ok {A B : Type} (m : result A) (k : A -> result B) (b : B) :
  bind m k = Ok b -> exists a, m = Ok a /\ k a = Ok b.
Proof.
  destruct m as [a|e]; simpl; intros H; [exists a; auto | discriminate].
Qed.

(** Splits a hypothesis [x <- m ;; k = Ok b] into its two steps. *)
Ltac bind_inv H :=
  let a := fresh "a" in
  let Hm := fresh "Hm" in
  apply bind_ok in H; destruct H as [a [Hm H]].

Section ExtractorFacts.

Variable pyfloat : string -> option f64.
Variable natoms : nat.

(** *** What a step reads: the lines it consumes, and nothing after them *)

Lemma next_ok (f f' : list string) (l : string) :
  next f = Ok (l, f') <-> f = l :: f'.
Proof.
  destruct f as [|x f]; simpl; split; intros H; try discriminate.
  - now inversion H.
  - now inversion H.
Qed.

Lemma skip_header_ok (f f' : list string) :
  skip_header f = Ok f' <-> exists l1 l2 l3, f = l1 :: l2 :: l3 :: f'.
Proof.
  unfold skip_header.
  destruct f as [|l1 [|l2 [|l3 f]]]; simpl; split; intros H;
    try discriminate; try (destruct H as (? & ? & ? & H); discriminate).
  - inversion H; subst; now exists l1, l2, l3.
  - destruct H as (? & ? & ? & H); now inversion H.
Qed.

Lemma contact_rows_frame (n i : nat) (f f' : list string) (cs cs' : list f64) :
  contact_rows pyfloat n i f cs = Ok (f', cs') ->
  exists rows, f = rows ++ f' /\ List.length rows = n /\
    forall g, contact_rows pyfloat n i (rows ++ g) cs = Ok (g, cs').
Proof.
  revert i f cs; induction n as [|n IH]; intros i f cs H; simpl in H.
  - inversion H; subst; exists []; auto.
  - bind_inv H. destruct a as [row f1]. apply next_ok in Hm; subst f.
    simpl in H. bind_inv H.
    destruct (IH _ _ _ H) as (rows & -> & Hlen & Hg).
    exists (row :: rows); repeat split; simpl; auto.
    intros g. rewrite Hm. simpl. apply Hg.
Qed.

Lemma dipole_rows_frame (n i : nat) (f f' : list string) (ds ds' : list mat3) :
  dipole_rows pyfloat n i f ds = Ok (f', ds') ->
  exists rows, f = rows ++ f' /\ List.length rows = n /\
    forall g, dipole_rows pyfloat n i (rows ++ g) ds = Ok (g, ds').
Proof.
  revert i f ds; induction n as [|n IH]; intros i f ds H; simpl in H.
  - inversion H; subst; exists []; auto.
  - bind_inv H. destruct a as [row f1]. apply next_ok in Hm; subst f.
    simpl in H. bind_inv H.
    destruct (IH _ _ _ H) as (rows & -> & Hlen & Hg).
    exists (row :: rows); repeat split; simpl; auto.
    intros g. rewrite Hm. simpl. apply Hg.
Qed.

Lemma on_contact_frame (line : string) (f f' : list string) (st st' : scan_state) :
  on_contact pyfloat natoms line f st = Ok (f', st') ->
  exists used, f = used ++ f' /\
    forall g, on_contact pyfloat natoms line (used ++ g) st = Ok (g, st').
Proof.
  unfold on_contact. destruct (re_contact line).
  - intros H. bind_inv H. apply skip_header_ok in Hm.
    destruct Hm as (l1 & l2 & l3 & ->).
    bind_inv H. destruct a0 as [f1 cs]. simpl in H. inversion H; subst.
    apply contact_rows_frame in Hm. destruct Hm as (rows & -> & _ & Hg).
    exists (l1 :: l2 :: l3 :: rows); split; [reflexivity|].
    intros g. simpl. rewrite Hg. reflexivity.
  - intros H; inversion H; subst. exists []; auto.
Qed.

Lemma on_dipole_frame (line : string) (f f' : list string) (st st' : scan_state) :
  on_dipole pyfloat natoms line f st = Ok (f', st') ->
  exists used, f = used ++ f' /\
    forall g, on_dipole pyfloat natoms line (used ++ g) st = Ok (g, st').
Proof.
  unfold on_dipole. destruct (re_dipole line).
  - intros H. bind_inv H. apply skip_header_ok in Hm.
    destruct Hm as (l1 & l2 & l3 & ->).
    bind_inv H. destruct a0 as [f1 ds]. simpl in H. inversion H; subst.
    apply dipole_rows_frame in Hm. destruct Hm as (rows & -> & _ & Hg).
    exists (l1 :: l2 :: l3 :: rows); split; [reflexivity|].
    intros g. simpl. rewrite Hg. reflexivity.
  - intros H; inversion H; subst. exists []; auto.
Qed.

Lemma loop_body_frame (line : string) (f f' : list string) (st st' : scan_state) :
  loop_body pyfloat natoms line f st = Ok (f', st') ->
  exists used, f = used ++ f' /\
    forall g, loop_body pyfloat natoms line (used ++ g) st = Ok (g, st').
Proof.
  unfold loop_body. intros H. bind_inv H. bind_inv H.
  destruct a0 as [f1 st1]. simpl in H.
  apply on_contact_frame in Hm0. destruct Hm0 as (u1 & -> & Hg1).
  apply on_dipole_frame in H. destruct H as (u2 & -> & Hg2).
  exists (u1 ++ u2); split; [now rewrite app_assoc|].
  intros g. rewrite Hm. simpl. rewrite <- app_assoc, Hg1. simpl. apply Hg2.
Qed.

Lemma loop_body_length (line : string) (f f' : list string) (st st' : scan_state) :
  loop_body pyfloat natoms line f st = Ok (f', st') -> (List.length f' <= List.length f)%nat.
Proof.
  intros H. apply loop_body_frame in H. destruct H as (used & -> & _).
  rewrite length_app. lia.
Qed.

(** *** The loop needs no more iterations than there are lines *)

Lemma scan_enough (fuel : nat) (f : list string) (st : scan_state) :
  (List.length f <= fuel)%nat -> exists r, scan pyfloat natoms fuel f st = Some r.
Proof.
  revert f st; induction fuel as [|fuel IH]; intros f st Hlen.
  - destruct f; [eexists; reflexivity | simpl in Hlen; lia].
  - destruct f as [|line f]; [eexists; reflexivity|]. simpl in *.
    destruct (loop_body pyfloat natoms line f st) as [[f' st']|e] eqn:Hb.
    + apply IH. apply loop_body_length in Hb. lia.
    + eexists; reflexivity.
Qed.

Lemma scan_more (fuel fuel' : nat) (f : list string) (st : scan_state)
  (r : result scan_state) :
  scan pyfloat natoms fuel f st = Some r -> (fuel <= fuel')%nat -> scan pyfloat natoms fuel' f st = Some r.
Proof.
  revert fuel' f st; induction fuel as [|fuel IH]; intros fuel' f st H Hle.
  - destruct f; simpl in H; [|discriminate].
    destruct fuel'; exact H.
  - destruct fuel' as [|fuel']; [lia|].
    destruct f as [|line f]; [exact H|]. simpl in *.
    destruct (loop_body pyfloat natoms line f st) as [[f' st']|e]; [|exact H].
    apply (IH fuel'); [exact H | lia].
Qed.

(** The loop satisfies the equations of [for line in f]. *)
Lemma for_line_in_f_nil (st : scan_state) : for_line_in_f pyfloat natoms [] st = Ok st.
Proof. reflexivity. Qed.

Lemma for_line_in_f_cons (line : string) (f : list string) (st : scan_state) :
  for_line_in_f pyfloat natoms (line :: f) st =
  ('(f', st') <- loop_body pyfloat natoms line f st ;; for_line_in_f pyfloat natoms f' st').
Proof.
  unfold for_line_in_f at 1. simpl.
  destruct (loop_body pyfloat natoms line f st) as [[f' st']|e] eqn:Hb; simpl; [|reflexivity].
  unfold for_line_in_f.
  destruct (scan_enough _ f' st' (Nat.le_refl _)) as [r Hr].
  rewrite Hr. apply loop_body_length in Hb.
  now rewrite (scan_more _ _ _ _ _ Hr Hb).
Qed.

(** *** The positions the loop passes through *)

Lemma reaches_result (f f' : list string) (st st' : scan_state) :
  reaches pyfloat natoms f st f' st' ->
  for_line_in_f pyfloat natoms f st = for_line_in_f pyfloat natoms f' st'.
Proof.
  induction 1 as [|line f st f1 st1 f2 st2 Hb _ IH]; [reflexivity|].
  rewrite for_line_in_f_cons, Hb. exact IH.
Qed.

(** The iterations between two positions read the lines between them
    and nothing else. *)
Lemma reaches_frame (f f' : list string) (st st' : scan_state) :
  reaches pyfloat natoms f st f' st' ->
  exists pre, f = pre ++ f' /\
    forall g, reaches pyfloat natoms (pre ++ g) st g st'.
Proof.
  induction 1 as [|line f st f1 st1 f2 st2 Hb _ IH].
  - exists []; split; [reflexivity | intros g; constructor].
  - destruct IH as (pre & -> & Hg).
    apply loop_body_frame in Hb. destruct Hb as (used & -> & Hu).
    exists (line :: used ++ pre); split.
    + simpl. now rewrite app_assoc.
    + intros g. simpl. rewrite <- app_assoc.
      eapply reaches_next; [apply Hu | apply Hg].
Qed.

(** A successful scan has passed through every position down to the end
    of the report. *)
Lemma for_line_in_f_ok (f : list string) (st st' : scan_state) :
  for_line_in_f pyfloat natoms f st = Ok st' -> reaches pyfloat natoms f st [] st'.
Proof.
  remember (List.length f) as n eqn:Hn.
  revert f st Hn; induction n as [n IH] using lt_wf_ind; intros f st Hn H.
  destruct f as [|line f].
  - rewrite for_line_in_f_nil in H. inversion H; subst. constructor.
  - rewrite for_line_in_f_cons in H. bind_inv H. destruct a as [f1 st1].
    simpl in H. eapply reaches_next; [exact Hm|].
    apply loop_body_length in Hm.
    apply (IH (List.length f1)); [subst n; simpl; lia | reflexivity | exact H].
Qed.

Lemma extract_ok_reaches (outcar : list string) (st : scan_state) :
  extract pyfloat natoms outcar = Ok st <->
  reaches pyfloat natoms outcar (initial_state natoms) [] st.
Proof.
  split.
  - apply for_line_in_f_ok.
  - intros H. unfold extract.
    rewrite (reaches_result _ _ _ _ H). apply for_line_in_f_nil.
Qed.

(** An error in the iteration of a line the scan meets is the error of
    the extraction. *)
Lemma meets_raise (outcar : list string) (line : string)
  (rest : list string) (st : scan_state) (e : exn) :
  meets pyfloat natoms outcar line rest st ->
  loop_body pyfloat natoms line rest st = Raise e ->
  extract pyfloat natoms outcar = Raise e.
Proof.
  intros Hr Hb. unfold extract.
  rewrite (reaches_result _ _ _ _ Hr), for_line_in_f_cons, Hb. reflexivity.
Qed.

(** A property of the arrays that every iteration keeps holds at every
    position. *)
Lemma reaches_invariant (P : scan_state -> Prop) :
  (forall line f st f' st',
      P st -> loop_body pyfloat natoms line f st = Ok (f', st') -> P st') ->
  forall f st f' st',
    reaches pyfloat natoms f st f' st' -> P st -> P st'.
Proof.
  intros Hstep f st f' st' H.
  induction H as [|line f st f1 st1 f2 st2 Hb _ IH]; intros HP; [exact HP|].
  apply IH. eapply Hstep; eauto.
Qed.

End ExtractorFacts.

(* ------------------------------------------------------------------ *)
(** * Arrays and rows *)

Section ArrayFacts.

Context {T : Type}.

Lemma length_setitem (l : list T) (i : nat) (v : T) :
  List.length (setitem l i v) = List.length l.
Proof.
  revert i; induction l as [|a l IH]; intros [|i]; simpl; auto.
Qed.

Lemma setitem_middle (done todo : list T) (x v : T) :
  setitem (done ++ x :: todo) (List.length done) v = done ++ v :: todo.
Proof.
  induction done as [|a done IH]; simpl; [reflexivity | now rewrite IH].
Qed.

Lemma nth_middle_item (done todo : list T) (x d : T) :
  nth (List.length done) (done ++ x :: todo) d = x.
Proof.
  induction done as [|a done IH]; simpl; auto.
Qed.

Lemma Forall_setitem (P : T -> Prop) (l : list T) (i : nat) (v : T) :
  Forall P l -> P v -> Forall P (setitem l i v).
Proof.
  intros Hl Hv; revert i; induction Hl as [|a l Ha Hl IH]; intros [|i];
    simpl; constructor; auto.
Qed.

Lemma nth_setitem_other (l : list T) (i j : nat) (v d : T) :
  i <> j -> nth j (setitem l i v) d = nth j l d.
Proof.
  revert i j; induction l as [|a l IH]; intros [|i] [|j] H; simpl; auto.
  - congruence.
Qed.

Lemma nth_setitem_same (l : list T) (i : nat) (v d : T) :
  (i < List.length l)%nat -> nth i (setitem l i v) d = v.
Proof.
  revert i; induction l as [|a l IH]; intros [|i] H; simpl in *;
    try lia; auto. apply IH; lia.
Qed.

End ArrayFacts.

Lemma tensor_of_row_symmetric (xx yy zz xy xz yz : f64) :
  symmetric (tensor_of_row xx yy zz xy xz yz).
Proof.
  intros i j Hi Hj.
  destruct i as [|[|[|i]]]; destruct j as [|[|[|j]]]; try lia; reflexivity.
Qed.

Lemma mzero_symmetric : symmetric mzero.
Proof.
  intros i j Hi Hj.
  destruct i as [|[|[|i]]]; destruct j as [|[|[|j]]]; try lia; reflexivity.
Qed.

(** The nine assignments overwrite the whole tensor with the symmetric
    tensor of the entries 1 to 6 of the row; a row of fewer than seven
    entries raises [IndexError]. *)
Lemma fill_tensor_spec (row : list f64) (t : mat3) :
  fill_tensor row t =
  match row with
  | _ :: xx :: yy :: zz :: xy :: xz :: yz :: _ =>
      Ok (tensor_of_row xx yy zz xy xz yz)
  | _ => Raise IndexError
  end.
Proof.
  destruct row as [|a0 [|a1 [|a2 [|a3 [|a4 [|a5 [|a6 row]]]]]]];
    try reflexivity.
Qed.

Section RowFacts.

Variable pyfloat : string -> option f64.

Lemma float_raise (tok : string) (e : exn) :
  float pyfloat tok = Raise e -> e = ValueError /\ pyfloat tok = None.
Proof.
  unfold float. destruct (pyfloat tok); intros H; inversion H; auto.
Qed.

(** Converting the tokens of a row fails exactly when one of them is
    not a number, and then with [ValueError]. *)
Lemma traverse_float_bad (toks : list string) :
  Exists (fun tok => pyfloat tok = None) toks ->
  traverse (float pyfloat) toks = Raise ValueError.
Proof.
  induction 1 as [tok toks H | tok toks _ IH]; simpl.
  - unfold float. now rewrite H.
  - destruct (float pyfloat tok) as [a|e] eqn:Ha; simpl.
    + now rewrite IH.
    + apply float_raise in Ha. now destruct Ha as [-> _].
Qed.

Lemma traverse_float_ok (toks : list string) (vals : list f64) :
  traverse (float pyfloat) toks = Ok vals <->
  map pyfloat toks = map Some vals.
Proof.
  revert vals; induction toks as [|tok toks IH]; intros vals; simpl.
  - split; intros H.
    + now inversion H.
    + destruct vals; [reflexivity | discriminate].
  - unfold float at 1. destruct (pyfloat tok) as [a|]; simpl.
    + destruct (traverse (float pyfloat) toks) as [bs|e] eqn:Ht; simpl.
      * split; intros H.
        -- inversion H; subst. simpl. f_equal. now apply IH.
        -- destruct vals as [|v vals]; [discriminate|]. simpl in H.
           inversion H; subst. f_equal. f_equal.
           assert (Hb : Ok bs = Ok vals) by now apply IH.
           now inversion Hb.
      * split; intros H; [discriminate|].
        destruct vals as [|v vals]; [discriminate|]. simpl in H.
        inversion H; subst.
        assert (Hb : @Raise (list f64) e = Ok vals) by now apply IH.
        discriminate.
    + split; intros H; [discriminate|].
      destruct vals; discriminate.
Qed.

(** The tensor of a row does not depend on what the site held before. *)
Lemma row_tensor_spec (row : string) (t : mat3) :
  row_tensor pyfloat row t =
  (vals <- traverse (float pyfloat) (split row) ;;
   match vals with
   | _ :: xx :: yy :: zz :: xy :: xz :: yz :: _ =>
       Ok (tensor_of_row xx yy zz xy xz yz)
   | _ => Raise IndexError
   end).
Proof.
  unfold row_tensor.
  destruct (traverse (float pyfloat) (split row)); simpl; [|reflexivity].
  apply fill_tensor_spec.
Qed.

Lemma row_tensor_any (row : string) (t t' : mat3) :
  row_tensor pyfloat row t = row_tensor pyfloat row t'.
Proof. now rewrite !row_tensor_spec. Qed.

Lemma row_tensor_symmetric (row : string) (t t' : mat3) :
  row_tensor pyfloat row t = Ok t' -> symmetric t'.
Proof.
  rewrite row_tensor_spec. intros H. bind_inv H.
  destruct a as [|a0 [|a1 [|a2 [|a3 [|a4 [|a5 [|a6 a]]]]]]];
    try discriminate.
  inversion H; subst. apply tensor_of_row_symmetric.
Qed.

Lemma row_tensor_bad_token (row : string) (t : mat3) :
  Exists (fun tok => pyfloat tok = None) (split row) ->
  row_tensor pyfloat row t = Raise ValueError.
Proof.
  intros H. unfold row_tensor. now rewrite (traverse_float_bad _ H).
Qed.

End RowFacts.

(* ------------------------------------------------------------------ *)
(** * The two tables *)

Section BlockFacts.

Variable pyfloat : string -> option f64.
Variable natoms : nat.

(** The rows of a complete Fermi-contact table give the values of the
    sites in file order; the first row that cannot be read gives the
    error. *)
Lemma contact_rows_spec (rows rest : list string) (done todo : list f64) :
  (List.length rows <= List.length todo)%nat ->
  contact_rows pyfloat (List.length rows) (List.length done)
               (rows ++ rest) (done ++ todo) =
  (vals <- traverse (contact_value pyfloat) rows ;;
   Ok (rest, done ++ vals ++ skipn (List.length rows) todo)).
Proof.
  revert done todo; induction rows as [|row rows IH]; intros done todo Hlen.
  - reflexivity.
  - destruct todo as [|x todo]; [simpl in Hlen; lia|].
    simpl in Hlen. cbn [List.length contact_rows app next bind traverse].
    destruct (contact_value pyfloat row) as [v|e]; cbn [bind]; [|reflexivity].
    rewrite setitem_middle.
    replace (done ++ v :: todo) with ((done ++ [v]) ++ todo)
      by now rewrite <- app_assoc.
    replace (S (List.length done)) with (List.length (done ++ [v]))
      by (rewrite length_app; simpl; lia).
    rewrite IH by lia.
    destruct (traverse (contact_value pyfloat) rows) as [vals|e];
      cbn [bind skipn]; [|reflexivity].
    now rewrite <- app_assoc.
Qed.

Lemma dipole_rows_spec (rows rest : list string) (done todo : list mat3) :
  (List.length rows <= List.length todo)%nat ->
  dipole_rows pyfloat (List.length rows) (List.length done)
              (rows ++ rest) (done ++ todo) =
  (ts <- traverse (fun row => row_tensor pyfloat row mzero) rows ;;
   Ok (rest, done ++ ts ++ skipn (List.length rows) todo)).
Proof.
  revert done todo; induction rows as [|row rows IH]; intros done todo Hlen.
  - reflexivity.
  - destruct todo as [|x todo]; [simpl in Hlen; lia|].
    simpl in Hlen. cbn [List.length dipole_rows app next bind traverse].
    rewrite nth_middle_item, (row_tensor_any pyfloat row x mzero).
    destruct (row_tensor pyfloat row mzero) as [t|e]; cbn [bind];
      [|reflexivity].
    rewrite setitem_middle.
    replace (done ++ t :: todo) with ((done ++ [t]) ++ todo)
      by now rewrite <- app_assoc.
    replace (S (List.length done)) with (List.length (done ++ [t]))
      by (rewrite length_app; simpl; lia).
    rewrite IH by lia.
    destruct (traverse (fun r => row_tensor pyfloat r mzero) rows)
      as [ts|e]; cbn [bind skipn]; [|reflexivity].
    now rewrite <- app_assoc.
Qed.

(** A table cut short by the end of the report raises. *)
Lemma contact_rows_short (n i : nat) (f : list string) (cs : list f64) :
  (List.length f < n)%nat -> exists e, contact_rows pyfloat n i f cs = Raise e.
Proof.
  revert i f cs; induction n as [|n IH]; intros i f cs H; [lia|].
  destruct f as [|row f]; simpl.
  - now exists StopIteration.
  - destruct (contact_value pyfloat row) as [v|e]; simpl.
    + apply IH. simpl in H. lia.
    + now exists e.
Qed.

Lemma dipole_rows_short (n i : nat) (f : list string) (ds : list mat3) :
  (List.length f < n)%nat -> exists e, dipole_rows pyfloat n i f ds = Raise e.
Proof.
  revert i f ds; induction n as [|n IH]; intros i f ds H; [lia|].
  destruct f as [|row f]; simpl.
  - now exists StopIteration.
  - destruct (row_tensor pyfloat row (nth i ds mzero)) as [v|e]; simpl.
    + apply IH. simpl in H. lia.
    + now exists e.
Qed.

Lemma on_contact_short (line : string) (f : list string) (st : scan_state) :
  re_contact line = true -> (List.length f < 3 + natoms)%nat ->
  exists e, on_contact pyfloat natoms line f st = Raise e.
Proof.
  intros Hre Hlen. unfold on_contact. rewrite Hre.
  destruct f as [|l1 [|l2 [|l3 f]]]; try (now exists StopIteration).
  simpl in Hlen. cbn [skip_header next bind].
  destruct (contact_rows_short natoms 0 f (contacts st)) as [e He]; [lia|].
  rewrite He. now exists e.
Qed.

Lemma on_dipole_short (line : string) (f : list string) (st : scan_state) :
  re_dipole line = true -> (List.length f < 3 + natoms)%nat ->
  exists e, on_dipole pyfloat natoms line f st = Raise e.
Proof.
  intros Hre Hlen. unfold on_dipole. rewrite Hre.
  destruct f as [|l1 [|l2 [|l3 f]]]; try (now exists StopIteration).
  simpl in Hlen. cbn [skip_header next bind].
  destruct (dipole_rows_short natoms 0 f (dipole_tensors st)) as [e He]; [lia|].
  rewrite He. now exists e.
Qed.

Lemma loop_body_short (line : string) (f : list string) (st : scan_state) :
  re_contact line = true \/ re_dipole line = true ->
  (List.length f < 3 + natoms)%nat ->
  exists e, loop_body pyfloat natoms line f st = Raise e.
Proof.
  intros Hre Hlen. unfold loop_body.
  destruct (on_totalspin pyfloat line st) as [st1|e]; cbn [bind];
    [|now exists e].
  destruct (on_contact pyfloat natoms line f st1) as [[f1 st2]|e] eqn:Hc;
    cbn [bind]; [|now exists e].
  destruct (re_contact line) eqn:Hrc.
  - destruct (on_contact_short line f st1 Hrc Hlen) as [e He]. congruence.
  - destruct Hre as [Hre|Hre]; [discriminate|].
    unfold on_contact in Hc. rewrite Hrc in Hc. inversion Hc; subst.
    apply on_dipole_short; assumption.
Qed.

(** *** What the iterations keep *)

Lemma initial_well_formed : well_formed natoms (initial_state natoms).
Proof.
  unfold well_formed, initial_state; simpl. rewrite !repeat_length.
  repeat split. apply Forall_forall. intros m Hm.
  apply repeat_spec in Hm; subst. apply mzero_symmetric.
Qed.

Lemma contact_rows_length (n i : nat) (f f' : list string) (cs cs' : list f64) :
  contact_rows pyfloat n i f cs = Ok (f', cs') ->
  List.length cs' = List.length cs.
Proof.
  revert i f cs; induction n as [|n IH]; intros i f cs H; simpl in H.
  - now inversion H.
  - bind_inv H. destruct a as [row f1]. simpl in H. bind_inv H.
    apply IH in H. now rewrite length_setitem in H.
Qed.

Lemma dipole_rows_keep (n i : nat) (f f' : list string) (ds ds' : list mat3) :
  dipole_rows pyfloat n i f ds = Ok (f', ds') ->
  List.length ds' = List.length ds /\
  (Forall symmetric ds -> Forall symmetric ds').
Proof.
  revert i f ds; induction n as [|n IH]; intros i f ds H; simpl in H.
  - inversion H; subst; auto.
  - bind_inv H. destruct a as [row f1]. simpl in H. bind_inv H.
    apply IH in H. rewrite length_setitem in H. destruct H as [Hl Hs].
    split; [exact Hl|]. intros Hds. apply Hs.
    apply Forall_setitem; [exact Hds|].
    eapply row_tensor_symmetric; eauto.
Qed.

Lemma on_totalspin_arrays (line : string) (st st' : scan_state) :
  on_totalspin pyfloat line st = Ok st' ->
  contacts st' = contacts st /\ dipole_tensors st' = dipole_tensors st.
Proof.
  unfold on_totalspin. destruct (re_totalspin line); intros H.
  - bind_inv H. bind_inv H. inversion H; subst; auto.
  - inversion H; subst; auto.
Qed.

Lemma on_contact_arrays (line : string) (f f' : list string)
  (st st' : scan_state) :
  on_contact pyfloat natoms line f st = Ok (f', st') ->
  List.length (contacts st') = List.length (contacts st) /\
  dipole_tensors st' = dipole_tensors st.
Proof.
  unfold on_contact. destruct (re_contact line); intros H.
  - bind_inv H. bind_inv H. destruct a0 as [f1 cs]. simpl in H.
    inversion H; subst; simpl. split; [|reflexivity].
    eapply contact_rows_length; eauto.
  - inversion H; subst; auto.
Qed.

Lemma on_dipole_arrays (line : string) (f f' : list string)
  (st st' : scan_state) :
  on_dipole pyfloat natoms line f st = Ok (f', st') ->
  contacts st' = contacts st /\
  List.length (dipole_tensors st') = List.length (dipole_tensors st) /\
  (Forall symmetric (dipole_tensors st) ->
   Forall symmetric (dipole_tensors st')).
Proof.
  unfold on_dipole. destruct (re_dipole line); intros H.
  - bind_inv H. bind_inv H. destruct a0 as [f1 ds]. simpl in H.
    inversion H; subst; simpl. split; [reflexivity|].
    eapply dipole_rows_keep; eauto.
  - inversion H; subst; auto.
Qed.

Lemma loop_body_well_formed (line : string) (f f' : list string)
  (st st' : scan_state) :
  well_formed natoms st -> loop_body pyfloat natoms line f st = Ok (f', st') ->
  well_formed natoms st'.
Proof.
  intros (Hc & Hd & Hs) H. unfold loop_body in H.
  bind_inv H. bind_inv H. destruct a0 as [f1 st2]. simpl in H.
  apply on_totalspin_arrays in Hm. destruct Hm as [E1 E2].
  apply on_contact_arrays in Hm0. destruct Hm0 as [E3 E4].
  apply on_dipole_arrays in H. destruct H as (E5 & E6 & E7).
  unfold well_formed. rewrite E5, E3, E1, E6, E4, E2.
  repeat split; auto. apply E7. now rewrite E4, E2.
Qed.

Lemma meets_well_formed (outcar : list string) (line : string)
  (rest : list string) (st : scan_state) :
  meets pyfloat natoms outcar line rest st -> well_formed natoms st.
Proof.
  intros H.
  eapply (reaches_invariant pyfloat natoms (well_formed natoms));
    [intros; eapply loop_body_well_formed; eauto | exact H | apply initial_well_formed].
Qed.

Lemma extract_well_formed (outcar : list string) (st : scan_state) :
  extract pyfloat natoms outcar = Ok st -> well_formed natoms st.
Proof.
  intros H. apply extract_ok_reaches in H.
  eapply (reaches_invariant pyfloat natoms (well_formed natoms));
    [intros; eapply loop_body_well_formed; eauto | exact H | apply initial_well_formed].
Qed.

End BlockFacts.

(* ------------------------------------------------------------------ *)
(** * Further facts on the dipolar table and on the total spin *)

Section DipoleFacts.

Variable pyfloat : string -> option f64.
Variable natoms : nat.

(** A row with a token that is no number stops the table with an error,
    whatever the rows before it hold. *)
Lemma dipole_rows_bad_row (n i : nat) (rows : list string) (row : string)
  (rest : list string) (ds : list mat3) :
  (List.length rows < n)%nat ->
  Exists (fun tok => pyfloat tok = None) (split row) ->
  exists e, dipole_rows pyfloat n i (rows ++ row :: rest) ds = Raise e.
Proof.
  intros Hlen Hbad. revert n i ds Hlen.
  induction rows as [|r rows IH]; intros n i ds Hlen.
  - destruct n as [|n]; [simpl in Hlen; lia|]. simpl.
    rewrite (row_tensor_bad_token pyfloat row (nth i ds mzero) Hbad).
    now exists ValueError.
  - destruct n as [|n]; [simpl in Hlen; lia|]. simpl.
    destruct (row_tensor pyfloat r (nth i ds mzero)) as [t|e]; simpl.
    + apply IH. simpl in Hlen. lia.
    + now exists e.
Qed.

(** The rows from index [i] on leave the sites below [i] alone. *)
Lemma dipole_rows_below (n i : nat) (f f' : list string) (ds ds' : list mat3) :
  dipole_rows pyfloat n i f ds = Ok (f', ds') ->
  forall j, (j < i)%nat -> nth j ds' mzero = nth j ds mzero.
Proof.
  revert i f ds; induction n as [|n IH]; intros i f ds H j Hj; simpl in H.
  - now inversion H.
  - bind_inv H. destruct a as [r f1]. simpl in H. bind_inv H.
    rewrite (IH _ _ _ H j) by lia.
    apply nth_setitem_other. lia.
Qed.

(** The row at position [k] of the table becomes the tensor of site
    [i + k]. *)
Lemma dipole_rows_nth (n i : nat) (rows : list string) (row : string)
  (rest f' : list string) (ds ds' : list mat3) :
  dipole_rows pyfloat n i (rows ++ row :: rest) ds = Ok (f', ds') ->
  (List.length rows < n)%nat -> (i + n <= List.length ds)%nat ->
  row_tensor pyfloat row mzero = Ok (nth (i + List.length rows) ds' mzero).
Proof.
  revert n i ds; induction rows as [|r rows IH]; intros n i ds H Hlen Hds.
  - destruct n as [|n]; [simpl in Hlen; lia|]. simpl in H.
    bind_inv H. rewrite (row_tensor_any pyfloat row _ mzero) in Hm.
    rewrite Hm. f_equal. simpl. rewrite Nat.add_0_r.
    rewrite (dipole_rows_below _ _ _ _ _ _ H) by lia.
    symmetry. apply nth_setitem_same. lia.
  - destruct n as [|n]; [simpl in Hlen; lia|]. simpl in H.
    bind_inv H. simpl in Hlen.
    replace (i + List.length (r :: rows))%nat
      with (S i + List.length rows)%nat by (simpl; lia).
    apply (IH n (S i) (setitem ds i a)); [exact H | lia |].
    rewrite length_setitem. lia.
Qed.

Lemma dipole_rows_from_report (outcar : list string) (n i : nat)
  (f f' : list string) (ds ds' : list mat3) :
  dipole_rows pyfloat n i f ds = Ok (f', ds') ->
  incl f outcar -> Forall (from_report pyfloat outcar) ds ->
  Forall (from_report pyfloat outcar) ds'.
Proof.
  revert i f ds; induction n as [|n IH]; intros i f ds H Hin Hds; simpl in H.
  - now inversion H; subst.
  - bind_inv H. destruct a as [r f1]. apply next_ok in Hm; subst f.
    simpl in H. bind_inv H.
    apply (IH _ _ _ H).
    + intros l Hl. apply Hin. now right.
    + apply Forall_setitem; [exact Hds|]. right. exists r. split.
      * apply Hin. now left.
      * now rewrite (row_tensor_any pyfloat r mzero (nth i ds mzero)).
Qed.

Lemma loop_body_from_report (outcar : list string) (line : string)
  (f f' : list string) (st st' : scan_state) :
  loop_body pyfloat natoms line f st = Ok (f', st') ->
  incl f outcar -> Forall (from_report pyfloat outcar) (dipole_tensors st) ->
  Forall (from_report pyfloat outcar) (dipole_tensors st').
Proof.
  intros H Hin Hds. unfold loop_body in H.
  bind_inv H. bind_inv H. destruct a0 as [f1 st2]. simpl in H.
  apply on_totalspin_arrays in Hm. destruct Hm as [_ E2].
  pose proof (on_contact_frame _ _ _ _ _ _ _ Hm0) as (u1 & Hu1 & _).
  apply on_contact_arrays in Hm0. destruct Hm0 as [_ E4].
  unfold on_dipole in H. destruct (re_dipole line).
  - bind_inv H. apply skip_header_ok in Hm. destruct Hm as (l1 & l2 & l3 & Hf1).
    bind_inv H. destruct a1 as [f2 ds2]. simpl in H. inversion H; subst f' st'.
    simpl. eapply dipole_rows_from_report; [exact Hm | |].
    + intros l Hl. apply Hin. rewrite Hu1. apply in_or_app. right.
      rewrite Hf1. now do 3 right.
    + now rewrite E4, E2.
  - inversion H; subst. now rewrite E4, E2.
Qed.

Lemma reaches_from_report (outcar f f' : list string) (st st' : scan_state) :
  reaches pyfloat natoms f st f' st' ->
  incl f outcar -> Forall (from_report pyfloat outcar) (dipole_tensors st) ->
  Forall (from_report pyfloat outcar) (dipole_tensors st').
Proof.
  induction 1 as [|line f st f1 st1 f2 st2 Hb _ IH]; intros Hin Hds;
    [exact Hds|].
  pose proof (loop_body_frame _ _ _ _ _ _ _ Hb) as (used & Hu & _).
  apply IH.
  - intros l Hl. apply Hin. right. rewrite Hu. apply in_or_app. now right.
  - eapply loop_body_from_report; [exact Hb | | exact Hds].
    intros l Hl. apply Hin. now right.
Qed.

(** *** A report without the dipolar header *)

Lemma loop_body_no_dipole (line : string) (f : list string) (st : scan_state) :
  re_dipole line = false ->
  loop_body pyfloat natoms line f st =
  (st1 <- on_totalspin pyfloat line st ;; on_contact pyfloat natoms line f st1).
Proof.
  intros Hre. unfold loop_body, on_dipole. rewrite Hre.
  destruct (on_totalspin pyfloat line st) as [st1|e]; simpl; [|reflexivity].
  destruct (on_contact pyfloat natoms line f st1) as [[f1 st2]|e];
    reflexivity.
Qed.

Lemma reaches_no_dipole (f f' : list string) (st st' : scan_state) :
  reaches pyfloat natoms f st f' st' ->
  Forall (fun l => re_dipole l = false) f ->
  dipole_tensors st' = dipole_tensors st /\
  Forall (fun l => re_dipole l = false) f'.
Proof.
  induction 1 as [|line f st f1 st1 f2 st2 Hb _ IH]; intros Hf; [auto|].
  inversion Hf as [|x l Hline Hrest]; subst.
  pose proof (loop_body_frame _ _ _ _ _ _ _ Hb) as (used & Hu & _).
  rewrite (loop_body_no_dipole _ f st Hline) in Hb. bind_inv Hb.
  apply on_totalspin_arrays in Hm. destruct Hm as [_ E1].
  apply on_contact_arrays in Hb. destruct Hb as [_ E2].
  subst f. apply Forall_app in Hrest. destruct Hrest as [_ Hf1].
  destruct (IH Hf1) as [E3 Hf2]. split; [|exact Hf2].
  now rewrite E3, E2, E1.
Qed.

End DipoleFacts.

Section TotalSpinFacts.

Variable pyfloat : string -> option f64.
Variable natoms : nat.

(** A line that carries the total-spin marker has a last token. *)
Lemma on_totalspin_value (line tok : string) (s : f64) (st : scan_state) :
  re_totalspin line = true ->
  last_item (split line) = Ok tok -> pyfloat tok = Some s ->
  on_totalspin pyfloat line st =
  Ok (State (contacts st) (dipole_tensors st) (Some s)).
Proof.
  intros Hre Htok Hs. unfold on_totalspin. rewrite Hre, Htok. simpl.
  unfold float. now rewrite Hs.
Qed.

(** One iteration treats the arrays alike whatever [totalS] holds. *)
Lemma loop_body_same_arrays (line : string) (f : list string)
  (cs : list f64) (ds : list mat3) (t t' : option f64) :
  match loop_body pyfloat natoms line f (State cs ds t),
        loop_body pyfloat natoms line f (State cs ds t') with
  | Ok (f1, s1), Ok (f2, s2) =>
      f1 = f2 /\ contacts s1 = contacts s2 /\
      dipole_tensors s1 = dipole_tensors s2
  | Raise e, Raise e' => e = e'
  | _, _ => False
  end.
Proof.
  unfold loop_body, on_totalspin, on_contact, on_dipole.
  destruct (re_totalspin line); simpl.
  - destruct (last_item (split line)) as [tok|e]; simpl; [|reflexivity].
    destruct (float pyfloat tok) as [s|e]; simpl; [|reflexivity].
    destruct (re_contact line); simpl.
    + destruct (skip_header f) as [f1|e]; simpl; [|reflexivity].
      destruct (contact_rows pyfloat natoms 0 f1 cs) as [[f2 cs2]|e]; simpl;
        [|reflexivity].
      destruct (re_dipole line); simpl; [|auto].
      destruct (skip_header f2) as [f3|e]; simpl; [|reflexivity].
      destruct (dipole_rows pyfloat natoms 0 f3 ds) as [[f4 ds4]|e]; simpl;
        auto.
    + destruct (re_dipole line); simpl; [|auto].
      destruct (skip_header f) as [f3|e]; simpl; [|reflexivity].
      destruct (dipole_rows pyfloat natoms 0 f3 ds) as [[f4 ds4]|e]; simpl;
        auto.
  - destruct (re_contact line); simpl.
    + destruct (skip_header f) as [f1|e]; simpl; [|reflexivity].
      destruct (contact_rows pyfloat natoms 0 f1 cs) as [[f2 cs2]|e]; simpl;
        [|reflexivity].
      destruct (re_dipole line); simpl; [|auto].
      destruct (skip_header f2) as [f3|e]; simpl; [|reflexivity].
      destruct (dipole_rows pyfloat natoms 0 f3 ds) as [[f4 ds4]|e]; simpl;
        auto.
    + destruct (re_dipole line); simpl; [|auto].
      destruct (skip_header f) as [f3|e]; simpl; [|reflexivity].
      destruct (dipole_rows pyfloat natoms 0 f3 ds) as [[f4 ds4]|e]; simpl;
        auto.
Qed.

(** The loop fills the arrays alike whatever [totalS] held at its
    start. *)
Lemma for_line_in_f_same_arrays (f : list string) (cs : list f64)
  (ds : list mat3) (t t' : option f64) :
  same_arrays (for_line_in_f pyfloat natoms f (State cs ds t))
              (for_line_in_f pyfloat natoms f (State cs ds t')).
Proof.
  remember (List.length f) as n eqn:Hn.
  revert f cs ds t t' Hn; induction n as [n IH] using lt_wf_ind.
  intros f cs ds t t' Hn. destruct f as [|line f].
  - rewrite !for_line_in_f_nil. simpl. auto.
  - rewrite !for_line_in_f_cons.
    pose proof (loop_body_same_arrays line f cs ds t t') as Hb.
    destruct (loop_body pyfloat natoms line f (State cs ds t))
      as [[f1 [cs1 ds1 t1]]|e] eqn:H1;
    destruct (loop_body pyfloat natoms line f (State cs ds t'))
      as [[f2 [cs2 ds2 t2]]|e'] eqn:H2; simpl in Hb; try contradiction.
    + destruct Hb as (-> & -> & ->). simpl.
      apply loop_body_length in H1.
      apply (IH (List.length f2)); [subst n; simpl; lia | reflexivity].
    + subst e'. simpl. reflexivity.
Qed.

End TotalSpinFacts.

(* ------------------------------------------------------------------ *)
(** * The extractor: statements *)

(** Runs one iteration of the loop on a concrete report. *)
Ltac scan_step := eapply reaches_next; [vm_compute; reflexivity|].

Lemma row_tensor_tokens (pyfloat : string -> option f64) (row : string)
  (t t' : mat3) :
  row_tensor pyfloat row t = Ok t' ->
  exists id xx yy zz xy xz yz more,
    map pyfloat (split row)
    = map Some (id :: xx :: yy :: zz :: xy :: xz :: yz :: more) /\
    t' = tensor_of_row xx yy zz xy xz yz.
Proof.
  rewrite row_tensor_spec. intros H. bind_inv H.
  destruct a as [|a0 [|a1 [|a2 [|a3 [|a4 [|a5 [|a6 a]]]]]]];
    try discriminate.
  inversion H; subst. exists a0, a1, a2, a3, a4, a5, a6, a.
  split; [|reflexivity]. now apply traverse_float_ok.
Qed.

(** C7.  When the scan meets a table header (Fermi-contact or dipolar)
    and the report ends before the three layout lines and the [natoms]
    rows of the table are all there, the extraction raises an exception,
    and so does [get_hyperfine]: no array is returned, neither partial
    nor zero-filled.  A report with fewer than [natoms] rows after a
    header has fewer than [3 + natoms] lines after it. *)
Theorem truncated_block_raises (pyfloat : string -> option f64)
  (natoms : nat) (outcar : list string) (hdr : string)
  (rest : list string) (st : scan_state) (muon_index : Z) :
  meets pyfloat natoms outcar hdr rest st ->
  re_contact hdr = true \/ re_dipole hdr = true ->
  (List.length rest < 3 + natoms)%nat ->
  exists e, extract pyfloat natoms outcar = Raise e /\
            get_hyperfine pyfloat outcar natoms muon_index = Raise e.
Proof.
  intros Hmeet Hhdr Hlen.
  destruct (loop_body_short pyfloat natoms hdr rest st Hhdr Hlen) as [e He].
  exists e.
  pose proof (meets_raise pyfloat natoms outcar hdr rest st e Hmeet He) as Hx.
  split; [exact Hx|]. unfold get_hyperfine. now rewrite Hx.
Qed.

Lemma truncated_block_raises_witness :
  re_contact Sample.contact_header = true /\
  exists e, extract float_of_string 2 Sample.outcar_truncated = Raise e /\
            get_hyperfine float_of_string Sample.outcar_truncated 2 (-1)
            = Raise e.
Proof.
  split; [vm_compute; reflexivity|].
  apply (truncated_block_raises float_of_string 2 Sample.outcar_truncated
           Sample.contact_header
           [ Sample.rule; Sample.contact_titles; Sample.rule;
             "    1      -0.001    -0.002    -0.003     0.131     0.125"%string ]
           (State [zero; zero] [mzero; mzero] (Some (Fin 2.0000000)))).
  - unfold meets, Sample.outcar_truncated. scan_step. scan_step.
    apply reaches_here.
  - left. vm_compute. reflexivity.
  - simpl. lia.
Defined.

(** C5.  Every tensor of the array the extractor returns is symmetric,
    entry (i,j) equal to entry (j,i).  Each tensor is the zero it was
    created with or comes from one line of the report, whose tokens 4, 5
    and 6 give the entries (0,1)=(1,0), (0,2)=(2,0) and (1,2)=(2,1). *)
Theorem extracted_tensors_symmetric (pyfloat : string -> option f64)
  (natoms : nat) (outcar : list string) (st : scan_state) :
  extract pyfloat natoms outcar = Ok st ->
  Forall (fun t =>
            (forall i j, (i < 3)%nat -> (j < 3)%nat -> mget t i j = mget t j i)
            /\ (t = mzero \/
                exists row id xx yy zz xy xz yz more,
                  In row outcar /\
                  map pyfloat (split row)
                  = map Some (id :: xx :: yy :: zz :: xy :: xz :: yz :: more)
                  /\ t = Mat (Vec xx xy xz) (Vec xy yy yz) (Vec xz yz zz)))
         (dipole_tensors st).
Proof.
  intros H.
  pose proof (extract_well_formed pyfloat natoms outcar st H) as (_ & _ & Hsym).
  apply extract_ok_reaches in H.
  assert (Hfrom : Forall (from_report pyfloat outcar) (dipole_tensors st)).
  { apply (reaches_from_report pyfloat natoms outcar _ _ _ _ H).
    - intros l Hl; exact Hl.
    - simpl. apply Forall_forall. intros m Hm.
      apply repeat_spec in Hm. now left. }
  rewrite Forall_forall in *. intros t Ht. split.
  - exact (Hsym t Ht).
  - destruct (Hfrom t Ht) as [Hz | (row & Hin & Hrow)]; [now left|].
    right. apply row_tensor_tokens in Hrow.
    destruct Hrow as (id & xx & yy & zz & xy & xz & yz & more & Htok & ->).
    exists row, id, xx, yy, zz, xy, xz, yz, more. auto.
Qed.

Lemma extracted_tensors_symmetric_witness :
  extract float_of_string 2 Sample.outcar
  = Ok (State Sample.contacts_expected Sample.dipoles_expected
              (Some (Fin 2.0000000))) /\
  Forall (fun t => forall i j, (i < 3)%nat -> (j < 3)%nat ->
                               mget t i j = mget t j i)
         Sample.dipoles_expected.
Proof.
  assert (H : extract float_of_string 2 Sample.outcar
              = Ok (State Sample.contacts_expected Sample.dipoles_expected
                          (Some (Fin 2.0000000))))
    by (vm_compute; reflexivity).
  split; [exact H|].
  pose proof (extracted_tensors_symmetric float_of_string 2 Sample.outcar
                _ H) as Hall.
  simpl in Hall. eapply Forall_impl; [|exact Hall].
  intros t [Hs _]. exact Hs.
Defined.

(** C3 (as amended).  On matching the Fermi-contact header the extractor
    skips exactly three following lines (rule, column titles, rule),
    whatever they hold, and then reads the [natoms] rows of the table; on
    matching the dipolar header it does the same.  Each contact value is
    the last whitespace-separated token of its row, and the values go to
    the sites 0 .. natoms-1 in file order; the lines after the rows are
    left unread.  The first row that cannot be read gives the error. *)
Theorem header_skips_three_lines (pyfloat : string -> option f64)
  (natoms : nat) (hdr l1 l2 l3 : string) (rows rest : list string)
  (st : scan_state) :
  well_formed natoms st ->
  List.length rows = natoms ->
  (re_contact hdr = true ->
   on_contact pyfloat natoms hdr (l1 :: l2 :: l3 :: rows ++ rest) st =
   (vals <- traverse (fun row => tok <- last_item (split row) ;;
                                 float pyfloat tok) rows ;;
    Ok (rest, State vals (dipole_tensors st) (totalS st))))
  /\
  (re_dipole hdr = true ->
   on_dipole pyfloat natoms hdr (l1 :: l2 :: l3 :: rows ++ rest) st =
   (ts <- traverse (fun row => row_tensor pyfloat row mzero) rows ;;
    Ok (rest, State (contacts st) ts (totalS st)))).
Proof.
  intros (Hc & Hd & _) Hrows. rewrite <- Hrows in *. split; intros Hre.
  - unfold on_contact. rewrite Hre. cbn [skip_header next bind].
    pose proof (contact_rows_spec pyfloat rows rest [] (contacts st)) as Hs.
    simpl in Hs. rewrite Hs by lia.
    fold (contact_value pyfloat).
    destruct (traverse (contact_value pyfloat) rows) as [vals|e]; simpl;
      [|reflexivity].
    rewrite skipn_all2 by lia. now rewrite app_nil_r.
  - unfold on_dipole. rewrite Hre. cbn [skip_header next bind].
    pose proof (dipole_rows_spec pyfloat rows rest [] (dipole_tensors st)) as Hs.
    simpl in Hs. rewrite Hs by lia.
    destruct (traverse (fun row => row_tensor pyfloat row mzero) rows)
      as [ts|e]; simpl; [|reflexivity].
    rewrite skipn_all2 by lia. now rewrite app_nil_r.
Qed.

Lemma header_skips_three_lines_witness :
  on_contact float_of_string 2 Sample.contact_header
    (Sample.rule :: Sample.contact_titles :: Sample.rule ::
     [ "    1      -0.001    -0.002    -0.003     0.131     0.125";
       "    2      -0.500    -0.400    -0.300    -0.155    -1.355" ]%string
     ++ [Sample.rule])
    (initial_state 2)
  = Ok ([Sample.rule], State Sample.contacts_expected [mzero; mzero] None).
Proof.
  destruct (header_skips_three_lines float_of_string 2 Sample.contact_header
              Sample.rule Sample.contact_titles Sample.rule
              [ "    1      -0.001    -0.002    -0.003     0.131     0.125";
                "    2      -0.500    -0.400    -0.300    -0.155    -1.355"
              ]%string
              [Sample.rule] (initial_state 2)
              (initial_well_formed 2) eq_refl) as [Hc _].
  rewrite Hc by (vm_compute; reflexivity).
  vm_compute. reflexivity.
Defined.

(** C3 as first stated does not hold: read after two skipped lines, the
    Fermi-contact table of the sample report would start at its second
    rule, which is no number, while the extractor reads the two values. *)
Lemma two_line_skip_refuted :
  on_contact float_of_string 2 Sample.contact_header
             (tl Sample.contact_table) (initial_state 2)
  = Ok ([Sample.rule], State Sample.contacts_expected [mzero; mzero] None)
  /\
  on_contact_two_skips float_of_string 2 Sample.contact_header
             (tl Sample.contact_table) (initial_state 2)
  = Raise ValueError.
Proof.
  split; vm_compute; reflexivity.
Qed.

(** C10.  When the scan meets the dipolar header, each of the [natoms]
    rows after the three layout lines is converted token by token: if any
    token of a row is no number -- the site identifier in front as well as
    a token after the six components -- the extraction raises, and so does
    [get_hyperfine].  When the iteration succeeds, all tokens of the row
    are numbers and the tensor of the site takes its six components from
    the tokens at positions 1 to 6, the token at position 0 and those after
    position 6 being converted and dropped. *)
Theorem dipolar_row_tokens (pyfloat : string -> option f64) (natoms : nat)
  (outcar : list string) (hdr l1 l2 l3 : string) (rows : list string)
  (row : string) (rest : list string) (st : scan_state) (muon_index : Z) :
  meets pyfloat natoms outcar hdr (l1 :: l2 :: l3 :: rows ++ row :: rest) st ->
  re_contact hdr = false -> re_dipole hdr = true ->
  (List.length rows < natoms)%nat ->
  (Exists (fun tok => pyfloat tok = None) (split row) ->
   exists e, extract pyfloat natoms outcar = Raise e /\
             get_hyperfine pyfloat outcar natoms muon_index = Raise e)
  /\
  (forall f' st',
      loop_body pyfloat natoms hdr (l1 :: l2 :: l3 :: rows ++ row :: rest) st
      = Ok (f', st') ->
      exists id xx yy zz xy xz yz more,
        map pyfloat (split row)
        = map Some (id :: xx :: yy :: zz :: xy :: xz :: yz :: more) /\
        nth (List.length rows) (dipole_tensors st') mzero
        = Mat (Vec xx xy xz) (Vec xy yy yz) (Vec xz yz zz)).
Proof.
  intros Hmeet Hrc Hrd Hlen.
  pose proof (meets_well_formed pyfloat natoms _ _ _ _ Hmeet) as (_ & Hd & _).
  split.
  - intros Hbad.
    assert (Hb : exists e,
               loop_body pyfloat natoms hdr
                 (l1 :: l2 :: l3 :: rows ++ row :: rest) st = Raise e).
    { unfold loop_body, on_contact, on_dipole. rewrite Hrc, Hrd.
      destruct (on_totalspin pyfloat hdr st) as [st1|e]; cbn [bind];
        [|now exists e].
      cbn [skip_header next bind].
      destruct (dipole_rows_bad_row pyfloat natoms 0 rows row rest
                  (dipole_tensors st1) Hlen Hbad) as [e He].
      rewrite He. now exists e. }
    destruct Hb as [e He]. exists e.
    pose proof (meets_raise pyfloat natoms _ _ _ _ e Hmeet He) as Hx.
    split; [exact Hx|]. unfold get_hyperfine. now rewrite Hx.
  - intros f' st' Hb. unfold loop_body, on_contact, on_dipole in Hb.
    rewrite Hrc, Hrd in Hb. bind_inv Hb.
    apply on_totalspin_arrays in Hm. destruct Hm as [_ E].
    cbn [skip_header next bind] in Hb. bind_inv Hb.
    destruct a0 as [f2 ds2]. simpl in Hb. inversion Hb; subst f' st'. simpl.
    pose proof (dipole_rows_nth pyfloat natoms 0 rows row rest f2
                  (dipole_tensors a) ds2 Hm Hlen) as Hn.
    simpl in Hn. rewrite E, Hd in Hn. specialize (Hn (Nat.le_refl _)).
    apply row_tensor_tokens in Hn.
    destruct Hn as (id & xx & yy & zz & xy & xz & yz & more & Htok & Ht).
    exists id, xx, yy, zz, xy, xz, yz, more. split; [exact Htok|exact Ht].
Qed.

Lemma dipolar_row_tokens_witness :
  float_of_string "Mu" = None /\
  exists e,
    extract float_of_string 2 Sample.outcar_labelled = Raise e /\
    get_hyperfine float_of_string Sample.outcar_labelled 2 (-1) = Raise e.
Proof.
  split; [reflexivity|].
  apply (proj1 (dipolar_row_tokens float_of_string 2 Sample.outcar_labelled
    Sample.dipole_header Sample.rule Sample.dipole_titles Sample.rule
    [ "    1       1.000     2.000    -3.000     0.500     0.250    -0.750"
    ]%string
    "   Mu     283.547   167.119  -450.667   -28.734   -15.587    58.553"
    [Sample.rule] (initial_state 2) (-1)
    (reaches_here float_of_string 2 _ _) eq_refl eq_refl
    (Nat.lt_succ_diag_r 1))).
  apply Exists_exists. exists "Mu"%string. split.
  - vm_compute. left. reflexivity.
  - vm_compute. reflexivity.
Defined.

(** The tokens of a well-formed dipolar row: seven numbers, of which the
    last six make the tensor. *)
Example dipolar_row_positions :
  row_tensor float_of_string
    "    2     283.547   167.119  -450.667   -28.734   -15.587    58.553"
    mzero
  = Ok (tensor_of_row (Fin 283.547) (Fin 167.119) (Fin (-450.667))
                      (Fin (-28.734)) (Fin (-15.587)) (Fin 58.553)).
Proof. vm_compute. reflexivity. Qed.

(** C4 (as amended).  When the scan meets a total-spin line, the last
    whitespace-separated token of the line is converted to a floating
    value and kept in the local [totalS].  The returned record has the
    fields [A_c], [A_dip], [A], [Bfield], [B_magnitude] and [theta] only:
    a report with another value on that line gives the same outcome of
    [get_hyperfine]. *)
Theorem total_spin_parsed_not_returned (pyfloat : string -> option f64)
  (natoms : nat) (muon_index : Z) (pre : list string) (line line' : string)
  (rest : list string) (st : scan_state) (tok tok' : string) (s s' : f64) :
  meets pyfloat natoms (pre ++ line :: rest) line rest st ->
  re_totalspin line = true -> re_totalspin line' = true ->
  no_header line -> no_header line' ->
  last_item (split line) = Ok tok -> pyfloat tok = Some s ->
  last_item (split line') = Ok tok' -> pyfloat tok' = Some s' ->
  on_totalspin pyfloat line st
  = Ok (State (contacts st) (dipole_tensors st) (Some s))
  /\
  get_hyperfine pyfloat (pre ++ line' :: rest) natoms muon_index
  = get_hyperfine pyfloat (pre ++ line :: rest) natoms muon_index.
Proof.
  intros Hmeet Hre Hre' [Hc Hd] [Hc' Hd'] Htok Hs Htok' Hs'.
  pose proof (on_totalspin_value pyfloat line tok s st Hre Htok Hs) as H1.
  pose proof (on_totalspin_value pyfloat line' tok' s' st Hre' Htok' Hs') as H2.
  split; [exact H1|].
  destruct (reaches_frame pyfloat natoms _ _ _ _ Hmeet) as (pre0 & Hpre & Hg).
  apply app_inv_tail in Hpre. subst pre0.
  unfold get_hyperfine, extract.
  rewrite (reaches_result pyfloat natoms _ _ _ _ (Hg (line' :: rest))).
  rewrite (reaches_result pyfloat natoms _ _ _ _ (Hg (line :: rest))).
  rewrite !for_line_in_f_cons.
  unfold loop_body, on_contact, on_dipole.
  rewrite H1, H2, Hc, Hd, Hc', Hd'. cbn [bind].
  pose proof (for_line_in_f_same_arrays pyfloat natoms rest (contacts st)
                (dipole_tensors st) (Some s') (Some s)) as Hsame.
  unfold same_arrays in Hsame.
  destruct (for_line_in_f pyfloat natoms rest
              (State (contacts st) (dipole_tensors st) (Some s')))
    as [r1|e1];
  destruct (for_line_in_f pyfloat natoms rest
              (State (contacts st) (dipole_tensors st) (Some s)))
    as [r2|e2]; try contradiction.
  - destruct Hsame as [E1 E2]. cbn [bind]. now rewrite E1, E2.
  - now subst.
Qed.

Lemma total_spin_parsed_not_returned_witness :
  on_totalspin float_of_string Sample.spin_line (initial_state 2)
  = Ok (State [zero; zero] [mzero; mzero] (Some (Fin 2.0000000)))
  /\
  get_hyperfine float_of_string Sample.outcar_spin3 2 (-1)
  = get_hyperfine float_of_string Sample.outcar 2 (-1).
Proof.
  apply (total_spin_parsed_not_returned float_of_string 2 (-1) []
           Sample.spin_line " Total magnetic moment S=     3.0000000"
           (tl Sample.outcar) (initial_state 2)
           "2.0000000" "3.0000000" (Fin 2.0000000) (Fin 3.0000000)).
  - apply reaches_here.
  - reflexivity.
  - reflexivity.
  - split; reflexivity.
  - split; reflexivity.
  - reflexivity.
  - vm_compute. reflexivity.
  - reflexivity.
  - vm_compute. reflexivity.
Defined.

(** C4 as first stated does not hold: the two sample reports differ in
    the total spin the extractor reads, 2 and 3, and [get_hyperfine]
    returns one and the same record for both, so the record does not
    hold the total spin. *)
Lemma total_spin_not_in_record :
  (st <- extract float_of_string 2 Sample.outcar ;; Ok (totalS st))
  = Ok (Some (Fin 2)) /\
  (st <- extract float_of_string 2 Sample.outcar_spin3 ;; Ok (totalS st))
  = Ok (Some (Fin 3)) /\
  is_ok (get_hyperfine float_of_string Sample.outcar 2 (-1)) = true /\
  get_hyperfine float_of_string Sample.outcar_spin3 2 (-1)
  = get_hyperfine float_of_string Sample.outcar 2 (-1) /\
  ~ (exists total_spin : hyperfine -> f64,
       forall outcar st res,
         extract float_of_string 2 outcar = Ok st ->
         get_hyperfine float_of_string outcar 2 (-1) = Ok res ->
         totalS st = Some (total_spin res)).
Proof.
  assert (E2 : extract float_of_string 2 Sample.outcar
               = Ok (State Sample.contacts_expected Sample.dipoles_expected
                           (Some (Fin 2.0000000))))
    by (vm_compute; reflexivity).
  assert (E3 : extract float_of_string 2 Sample.outcar_spin3
               = Ok (State Sample.contacts_expected Sample.dipoles_expected
                           (Some (Fin 3.0000000))))
    by (vm_compute; reflexivity).
  assert (Hsame : get_hyperfine float_of_string Sample.outcar_spin3 2 (-1)
                  = get_hyperfine float_of_string Sample.outcar 2 (-1))
    by (unfold get_hyperfine; rewrite E2, E3; reflexivity).
  assert (Hok : exists res,
             get_hyperfine float_of_string Sample.outcar 2 (-1) = Ok res)
    by (unfold get_hyperfine; rewrite E2; eexists; reflexivity).
  destruct Hok as [res Hres].
  split; [|split; [|split; [|split]]].
  - rewrite E2. simpl. do 2 f_equal. f_equal. lra.
  - rewrite E3. simpl. do 2 f_equal. f_equal. lra.
  - now rewrite Hres.
  - exact Hsame.
  - intros [proj Hproj].
    pose proof (Hproj _ _ _ E2 Hres) as P2.
    rewrite <- Hsame in Hres.
    pose proof (Hproj _ _ _ E3 Hres) as P3.
    cbn [totalS] in P2, P3.
    assert (E : Fin 2.0000000 = Fin 3.0000000) by congruence.
    inversion E. lra.
Qed.

(* ------------------------------------------------------------------ *)
(** * Arithmetic of the synthesizer *)

Section FloatFacts.

Local Open Scope R_scope.

Lemma sqrt_fin (x : R) : 0 <= x -> F64.sqrt (Fin x) = Fin (R_sqrt.sqrt x).
Proof.
  intros H. unfold F64.sqrt. destruct (Rle_dec 0 x); [reflexivity|contradiction].
Qed.

Lemma div_fin (x y : R) : y <> 0 -> div (Fin x) (Fin y) = Fin (x / y).
Proof.
  intros H. unfold div. destruct (Req_dec_T y 0); [contradiction|reflexivity].
Qed.

Lemma div_zero_zero : div (Fin 0) (Fin 0) = NaN.
Proof.
  unfold div. destruct (Req_dec_T 0 0) as [_|H]; [|now elim H].
  unfold Rsgn. destruct (Rlt_dec 0 0) as [H|_]; [lra|reflexivity].
Qed.

Lemma arccos_fin (x : R) : -1 <= x <= 1 -> arccos (Fin x) = Fin (acos x).
Proof.
  intros [H1 H2]. unfold arccos.
  destruct (Rle_dec (-1) x); [|contradiction].
  destruct (Rle_dec x 1); [reflexivity|contradiction].
Qed.

Lemma gt_fin_true (x y : R) : y < x -> gt (Fin x) (Fin y) = true.
Proof.
  intros H. unfold gt. destruct (Rlt_dec y x); [reflexivity|contradiction].
Qed.

Lemma gt_fin_false (x y : R) : x <= y -> gt (Fin x) (Fin y) = false.
Proof.
  intros H. unfold gt. destruct (Rlt_dec y x); [lra|reflexivity].
Qed.

Lemma mul_comm (a b : f64) : mul a b = mul b a.
Proof.
  destruct a, b; simpl; try reflexivity. f_equal. ring.
Qed.

Lemma gamma_mu_fin : gamma_mu = Fin (851.616 / (2 * PI)).
Proof.
  unfold gamma_mu, pi. cbn [mul]. apply div_fin.
  pose proof PI_RGT_0. lra.
Qed.

(** [3.14159265 < pi < 3.14159266], from the alternating series of
    [pi/4 = 2 atan(1/3) + atan(1/7)]. *)
Lemma PI_bounds : 3.14159265 < PI < 3.14159266.
Proof.
  pose proof (PI_2_3_7_ineq 4) as [Hlo Hhi].
  change (2 * 4)%nat with 8%nat in Hlo, Hhi.
  cbn [sum_f_R0] in Hlo, Hhi.
  unfold tg_alt, PI_2_3_7_tg, Ratan_seq in Hlo, Hhi.
  repeat match type of Hlo with context [INR ?n] =>
    let v := eval vm_compute in (Z.of_nat n) in
    replace (INR n) with (IZR v) in Hlo
      by (rewrite INR_IZR_INZ; reflexivity) end.
  repeat match type of Hhi with context [INR ?n] =>
    let v := eval vm_compute in (Z.of_nat n) in
    replace (INR n) with (IZR v) in Hhi
      by (rewrite INR_IZR_INZ; reflexivity) end.
  repeat match type of Hlo with context [pow ?x ?n] =>
    let v := eval vm_compute in n in progress change n with v in Hlo end.
  repeat match type of Hhi with context [pow ?x ?n] =>
    let v := eval vm_compute in n in progress change n with v in Hhi end.
  split; lra.
Qed.

Lemma ratio_in_range (x y z : R) :
  R_sqrt.sqrt (x * x + y * y + z * z) <> 0 ->
  -1 <= (x * 0 + y * 0 + z * 1) / R_sqrt.sqrt (x * x + y * y + z * z) <= 1.
Proof.
  intros Hm. set (S := x * x + y * y + z * z) in *.
  assert (HS : 0 <= S) by (unfold S; nra).
  pose proof (sqrt_pos S) as Hp.
  pose proof (sqrt_sqrt S HS) as Hsq.
  set (m := R_sqrt.sqrt S) in *.
  assert (Hz : - m <= z <= m) by (unfold S in Hsq; split; nra).
  assert (Hpos : 0 < m) by lra.
  replace (x * 0 + y * 0 + z * 1) with z by ring.
  split.
  - apply Rmult_le_reg_r with m; [exact Hpos|].
    unfold Rdiv. rewrite Rmult_assoc, Rinv_l by lra. lra.
  - apply Rmult_le_reg_r with m; [exact Hpos|].
    unfold Rdiv. rewrite Rmult_assoc, Rinv_l by lra. lra.
Qed.

Lemma degrees_in_range (r : R) : 0 <= 180 * acos r / PI <= 180.
Proof.
  pose proof (acos_bound r) as [H0 H1]. pose proof PI_RGT_0 as Hpi.
  split.
  - apply Rmult_le_reg_r with PI; [exact Hpi|].
    unfold Rdiv. rewrite Rmult_assoc, Rinv_l by lra. lra.
  - apply Rmult_le_reg_r with PI; [exact Hpi|].
    unfold Rdiv. rewrite Rmult_assoc, Rinv_l by lra. lra.
Qed.

Lemma fold_angle_fin (t : R) :
  0 <= t <= 180 ->
  exists t', fold_angle (Fin t) = Fin t' /\ 0 <= t' <= 90 /\
             (t' = t \/ t' = 180 - t).
Proof.
  intros [H0 H1]. unfold fold_angle.
  destruct (Rlt_dec 90 t) as [Hgt|Hle].
  - rewrite gt_fin_true by exact Hgt. exists (180 + - t).
    repeat split; [lra | lra | right; ring].
  - rewrite gt_fin_false by lra. exists t.
    repeat split; [lra | lra | now left].
Qed.

(** The angle of a finite field vector of non-zero length. *)
Lemma angle_of_finite (x y z : R) :
  R_sqrt.sqrt (x * x + y * y + z * z) <> 0 ->
  div (mul (Fin 180)
           (arccos (div (dot (Vec (Fin x) (Fin y) (Fin z)) z_axis)
                        (norm (Vec (Fin x) (Fin y) (Fin z))))))
      pi
  = Fin (180 * acos ((x * 0 + y * 0 + z * 1)
                     / R_sqrt.sqrt (x * x + y * y + z * z)) / PI).
Proof.
  intros Hm. unfold norm, dot, z_axis, pi. cbn [v0 v1 v2 mul add].
  rewrite sqrt_fin by nra. rewrite div_fin by exact Hm.
  rewrite arccos_fin by (apply ratio_in_range; exact Hm).
  cbn [mul]. apply div_fin. pose proof PI_RGT_0. lra.
Qed.

(** A quotient by zero is an infinity or NaN, and has no arccosine. *)
Lemma arccos_div_zero (d : f64) : arccos (div d (Fin 0)) = NaN.
Proof.
  destruct d as [x| | |]; unfold div.
  - destruct (Req_dec_T 0 0) as [_|H]; [|now elim H].
    destruct (Rsgn x); reflexivity.
  - destruct (Rlt_dec 0 0); reflexivity.
  - destruct (Rlt_dec 0 0); reflexivity.
  - reflexivity.
Qed.

(** The folded angle of the quotient [q]: a number of [0, 90] when [q]
    is a number of [-1, 1], NaN in every other case. *)
Lemma folded_angle_cases (q : f64) :
  ((exists r, q = Fin r /\ -1 <= r <= 1) ->
   exists t, fold_angle (div (mul (Fin 180) (arccos q)) pi) = Fin t /\
             0 <= t <= 90) /\
  ((forall r, q = Fin r -> ~ (-1 <= r <= 1)) ->
   fold_angle (div (mul (Fin 180) (arccos q)) pi) = NaN).
Proof.
  split.
  - intros (r & -> & Hr). rewrite arccos_fin by exact Hr.
    cbn [mul]. unfold pi. rewrite div_fin by (pose proof PI_RGT_0; lra).
    destruct (fold_angle_fin _ (degrees_in_range r)) as (t & Ht & Hr' & _).
    exists t. split; assumption.
  - intros Hout. destruct q as [r| | |]; try reflexivity.
    unfold arccos. destruct (Rle_dec (-1) r) as [H1|H1]; [|reflexivity].
    destruct (Rle_dec r 1) as [H2|H2]; [|reflexivity].
    elim (Hout r eq_refl). split; assumption.
Qed.

Lemma folded_angle_range (q : f64) :
  fold_angle (div (mul (Fin 180) (arccos q)) pi) = NaN \/
  exists t, fold_angle (div (mul (Fin 180) (arccos q)) pi) = Fin t /\
            0 <= t <= 90.
Proof.
  destruct (folded_angle_cases q) as [Hin Hout].
  destruct q as [r| | |]; try (left; reflexivity).
  destruct (Rle_dec (-1) r) as [H1|H1]; [destruct (Rle_dec r 1) as [H2|H2]|].
  - right. apply Hin. exists r. split; [reflexivity | split; assumption].
  - left. apply Hout. intros r' E. inversion E; subst. intros [_ H].
    contradiction.
  - left. apply Hout. intros r' E. inversion E; subst. intros [H _].
    contradiction.
Qed.

Lemma Rsgn_zero : Rsgn 0 = Zer.
Proof.
  unfold Rsgn. destruct (Rlt_dec 0 0) as [H|_]; [lra | reflexivity].
Qed.

Lemma add_zero_r (a : f64) : add a (Fin 0) = a.
Proof. destruct a; simpl; try reflexivity. f_equal. lra. Qed.

Lemma add_nan_r (a : f64) : add a NaN = NaN.
Proof. destruct a; reflexivity. Qed.

Lemma mul_one_fin (c : R) : mul (Fin 1) (Fin c) = Fin c.
Proof. simpl. f_equal. lra. Qed.

Lemma mul_zero_fin (c : R) : mul (Fin 0) (Fin c) = Fin 0.
Proof. simpl. f_equal. lra. Qed.

(** [0 * inf] and [0 * nan] are NaN. *)
Lemma mul_zero_not_fin (a : f64) :
  (forall c, a <> Fin c) -> mul (Fin 0) a = NaN.
Proof.
  intros H. destruct a as [c| | |]; simpl.
  - now elim (H c).
  - now rewrite Rsgn_zero.
  - now rewrite Rsgn_zero.
  - reflexivity.
Qed.

End FloatFacts.

(** What the record holds, in terms of the field vector. *)
Lemma synthesize_fields (gamma : f64) (cs : list f64) (ds : list mat3)
  (muon_index : Z) (res : hyperfine) :
  synthesize gamma cs ds muon_index = Ok res ->
  exists c d,
    getitem cs muon_index = Ok c /\ getitem ds muon_index = Ok d /\
    A_c res = mul c gamma /\
    A_dip res = mmap (fun x => mul x gamma) d /\
    A res = mzip add (A_dip res) (mmap (fun e => mul e (A_c res)) eye3) /\
    Bfield res = vmap (mul (Fin 0.5)) (mrow (A res) 2) /\
    B_magnitude res = norm (Bfield res) /\
    theta res =
    fold_angle (div (mul (Fin 180)
                         (arccos (div (dot (Bfield res) z_axis)
                                      (B_magnitude res))))
                    pi).
Proof.
  unfold synthesize. intros H. bind_inv H. bind_inv H.
  inversion H; subst; clear H. simpl.
  exists a, a0. repeat split; assumption.
Qed.

(** The synthesizer raises for an index out of range and for nothing
    else: the exception is the one of [contacts[muon_index]] or of
    [dipole_tensors[muon_index]]. *)
Lemma synthesize_raise (gamma : f64) (cs : list f64) (ds : list mat3)
  (muon_index : Z) (e : exn) :
  synthesize gamma cs ds muon_index = Raise e ->
  (e = IndexError \/ e = OverflowError) /\
  (getitem cs muon_index = Raise e \/
   getitem ds muon_index = Raise e).
Proof.
  assert (Hget : forall (T : Type) (l : list T) (i : Z) (e' : exn),
             getitem l i = Raise e' ->
             e' = IndexError \/ e' = OverflowError).
  { intros T l i e'. unfold getitem, item.
    destruct (_ || _)%bool.
    - destruct (fits_intp i); intros H; inversion H; auto.
    - destruct (nth_error l _); intros H; inversion H; auto. }
  unfold synthesize.
  destruct (getitem cs muon_index) as [c|e1] eqn:Hc; simpl.
  - destruct (getitem ds muon_index) as [d|e2] eqn:Hd; simpl.
    + discriminate.
    + intros H; inversion H; subst. split; [exact (Hget _ _ _ _ Hd) | auto].
  - intros H; inversion H; subst. split; [exact (Hget _ _ _ _ Hc) | auto].
Qed.

Lemma getitem_valid (T : Type) (l : list T) (i : Z) :
  (- Z.of_nat (List.length l) <= i < Z.of_nat (List.length l))%Z ->
  exists a, getitem l i = Ok a /\
            nth_error l (Z.to_nat (i mod Z.of_nat (List.length l))) = Some a.
Proof.
  intros Hi. unfold getitem, item.
  set (n := Z.of_nat (List.length l)) in *.
  assert (Hj : (i mod n = if (i <? 0) then i + n else i)%Z).
  { destruct (Z.ltb_spec i 0).
    - symmetry. apply (Z.mod_unique i n (-1) (i + n)); lia.
    - apply Z.mod_small. lia. }
  rewrite <- Hj.
  assert (Hr : (0 <= i mod n < n)%Z) by (apply Z.mod_pos_bound; lia).
  replace ((i mod n <? 0) || (n <=? i mod n))%Z%bool with false
    by (symmetry; apply orb_false_iff; split;
        [apply Z.ltb_ge | apply Z.leb_gt]; lia).
  destruct (nth_error l (Z.to_nat (i mod n))) as [a|] eqn:Hn.
  - exists a. auto.
  - apply nth_error_None in Hn. unfold n in *. lia.
Qed.

(* ------------------------------------------------------------------ *)
(** * The synthesizer: statements *)

(** A field of magnitude zero has no angle: the quotient by it is an
    infinity or NaN. *)
Lemma zero_magnitude_nan (gamma : f64) (cs : list f64) (ds : list mat3)
  (muon_index : Z) (res : hyperfine) :
  synthesize gamma cs ds muon_index = Ok res ->
  B_magnitude res = Fin 0 ->
  theta res = NaN.
Proof.
  intros H Hz.
  destruct (synthesize_fields _ _ _ _ _ H)
    as (c & d & _ & _ & _ & _ & _ & _ & _ & Hth).
  rewrite Hth, Hz, arccos_div_zero. reflexivity.
Qed.

(** The outcome for the sample report without markers: arrays of zeros,
    a zero field, no angle. *)
Lemma no_marker_outcome :
  exists res,
    get_hyperfine float_of_string Sample.outcar_no_marker 1 (-1) = Ok res /\
    B_magnitude res = Fin 0 /\ theta res = NaN.
Proof.
  assert (E : extract float_of_string 1 Sample.outcar_no_marker
              = Ok (State [zero] [mzero] None)) by (vm_compute; reflexivity).
  unfold get_hyperfine. rewrite E. cbn [bind contacts dipole_tensors].
  destruct (synthesize gamma_mu [zero] [mzero] (-1)) as [res|e] eqn:Hs.
  - exists res. split; [reflexivity|].
    assert (Hz : B_magnitude res = Fin 0).
    { unfold synthesize in Hs. rewrite gamma_mu_fin in Hs.
      change (getitem [zero] (-1)) with (Ok zero) in Hs.
      change (getitem [mzero] (-1)) with (Ok mzero) in Hs.
      cbn [bind] in Hs. inversion Hs; subst; clear Hs.
      cbn [B_magnitude]. unfold norm, dot, zero.
      cbn [mmap vmap mzip vzip mrow row0 row1 row2 v0 v1 v2 mzero vzero
           eye3 mul add zero].
      rewrite sqrt_fin by nra. f_equal.
      match goal with |- R_sqrt.sqrt ?s = _ =>
        replace s with 0%R by (unfold zero; ring) end.
      apply sqrt_0. }
    split; [exact Hz|].
    exact (zero_magnitude_nan _ _ _ _ _ Hs Hz).
  - apply synthesize_raise in Hs. destruct Hs as [_ [Hs|Hs]];
      vm_compute in Hs; discriminate.
Qed.

(** C2.  For every contacts array, dipoles array of the same length,
    valid site index (negative ones counting from the end) and
    gyromagnetic ratio, the synthesizer returns a record in which
    [A = gamma * dipoles[index] + identity(3) * (gamma * contacts[index])]
    entry by entry, [Bfield] is 0.5 times the third row (row index 2) of
    [A], and [B_magnitude] is the Euclidean norm of [Bfield]. *)
Theorem synthesize_combines (gamma : f64) (cs : list f64) (ds : list mat3)
  (muon_index : Z) :
  List.length ds = List.length cs ->
  (- Z.of_nat (List.length cs) <= muon_index < Z.of_nat (List.length cs))%Z ->
  exists c d res,
    nth_error cs (Z.to_nat (muon_index mod Z.of_nat (List.length cs)))
    = Some c /\
    nth_error ds (Z.to_nat (muon_index mod Z.of_nat (List.length cs)))
    = Some d /\
    synthesize gamma cs ds muon_index = Ok res /\
    (forall i j, (i < 3)%nat -> (j < 3)%nat ->
       mget (A res) i j
       = add (mul gamma (mget d i j))
             (mul (mget eye3 i j) (mul gamma c))) /\
    (forall j, (j < 3)%nat ->
       vget (Bfield res) j = mul (Fin 0.5) (mget (A res) 2 j)) /\
    B_magnitude res
    = F64.sqrt
        (add (add (mul (vget (Bfield res) 0) (vget (Bfield res) 0))
                  (mul (vget (Bfield res) 1) (vget (Bfield res) 1)))
             (mul (vget (Bfield res) 2) (vget (Bfield res) 2))).
Proof.
  intros Hlen Hidx.
  destruct (getitem_valid _ cs muon_index Hidx) as (c & Hc & Hnc).
  assert (Hidx' : (- Z.of_nat (List.length ds) <= muon_index
                   < Z.of_nat (List.length ds))%Z) by (rewrite Hlen; exact Hidx).
  destruct (getitem_valid _ ds muon_index Hidx') as (d & Hd & Hnd).
  rewrite Hlen in Hnd.
  exists c, d. unfold synthesize. rewrite Hc, Hd. cbn [bind].
  eexists. split; [exact Hnc|]. split; [exact Hnd|].
  split; [reflexivity|]. cbn [A Bfield B_magnitude].
  split; [|split].
  - intros i j Hi Hj. rewrite (mul_comm gamma (mget d i j)), (mul_comm gamma c).
    destruct i as [|[|[|i]]]; try lia;
      destruct j as [|[|[|j]]]; try lia; reflexivity.
  - intros j Hj. destruct j as [|[|[|j]]]; try lia; reflexivity.
  - reflexivity.
Qed.

Lemma synthesize_combines_witness :
  exists c d res,
    nth_error Sample.contacts_expected 1 = Some c /\
    nth_error Sample.dipoles_expected 1 = Some d /\
    synthesize gamma_mu Sample.contacts_expected Sample.dipoles_expected (-1)
    = Ok res /\
    mget (A res) 2 2 = add (mul gamma_mu (mget d 2 2))
                           (mul (Fin 1) (mul gamma_mu c)) /\
    vget (Bfield res) 2 = mul (Fin 0.5) (mget (A res) 2 2).
Proof.
  destruct (synthesize_combines gamma_mu Sample.contacts_expected
              Sample.dipoles_expected (-1) eq_refl)
    as (c & d & res & Hc & Hd & Hs & HA & HB & _).
  - simpl. lia.
  - exists c, d, res. repeat split.
    + exact Hc.
    + exact Hd.
    + exact Hs.
    + apply (HA 2%nat 2%nat); lia.
    + apply (HB 2%nat); lia.
Defined.

(** C6 (as amended).  The angle is
    [degrees(arccos(dot(Bfield, [0,0,1]) / B_magnitude))], replaced by
    [180 - angle] when it exceeds 90.  It is NaN or a number with
    [0 <= angle <= 90], nothing else: a number when the quotient
    [dot(Bfield, [0,0,1]) / B_magnitude] the program computes is a number
    of [-1, 1], and NaN in every other case. *)
Theorem angle_within_quadrant (gamma : f64) (cs : list f64) (ds : list mat3)
  (muon_index : Z) (res : hyperfine) :
  synthesize gamma cs ds muon_index = Ok res ->
  theta res =
  fold_angle (div (mul (Fin 180)
                       (arccos (div (dot (Bfield res) z_axis)
                                    (B_magnitude res))))
                  pi)
  /\ (theta res = NaN \/
      exists t, theta res = Fin t /\ (0 <= t <= 90)%R)
  /\ ((exists q, div (dot (Bfield res) z_axis) (B_magnitude res) = Fin q /\
                  (-1 <= q <= 1)%R) ->
      exists t, theta res = Fin t /\ (0 <= t <= 90)%R)
  /\ ((forall q, div (dot (Bfield res) z_axis) (B_magnitude res) = Fin q ->
                  ~ (-1 <= q <= 1)%R) ->
      theta res = NaN).
Proof.
  intros H.
  destruct (synthesize_fields _ _ _ _ _ H)
    as (c & d & _ & _ & _ & _ & _ & _ & _ & Hth).
  split; [exact Hth|]. rewrite Hth.
  split; [apply folded_angle_range | apply folded_angle_cases].
Qed.

Lemma angle_within_quadrant_witness :
  exists res,
    synthesize (Fin 1) [Fin 2] [mzero] 0 = Ok res /\
    exists t, theta res = Fin t /\ (0 <= t <= 90)%R.
Proof.
  eexists. split; [reflexivity|].
  apply (proj1 (proj2 (proj2 (angle_within_quadrant (Fin 1) [Fin 2] [mzero] 0
                                _ eq_refl)))).
  cbn [Bfield B_magnitude]. unfold norm, dot, z_axis.
  cbn [mmap vmap mzip vzip mrow row0 row1 row2 v0 v1 v2 mzero vzero
       eye3 mul add zero].
  rewrite sqrt_fin by nra.
  assert (Hne : R_sqrt.sqrt
                  ((0.5 * (0 * 1 + 0 * (2 * 1))) * (0.5 * (0 * 1 + 0 * (2 * 1)))
                   + (0.5 * (0 * 1 + 0 * (2 * 1))) * (0.5 * (0 * 1 + 0 * (2 * 1)))
                   + (0.5 * (0 * 1 + 1 * (2 * 1))) * (0.5 * (0 * 1 + 1 * (2 * 1))))
                <> 0%R).
  { apply Rgt_not_eq. apply sqrt_lt_R0. lra. }
  eexists. split; [apply div_fin; exact Hne|].
  apply ratio_in_range. exact Hne.
Defined.

(** C6 as first stated does not hold for all inputs: for the sample
    report without markers the arrays stay zero, the field has length
    zero, and the angle is NaN, which is not between 0 and 90. *)
Lemma angle_bound_refuted :
  exists res,
    get_hyperfine float_of_string Sample.outcar_no_marker 1 (-1) = Ok res /\
    ~ (le (Fin 0) (theta res) /\ le (theta res) (Fin 90)).
Proof.
  destruct no_marker_outcome as (res & Hres & _ & Hth).
  exists res. split; [exact Hres|].
  rewrite Hth. simpl. tauto.
Qed.

(** C9 (as amended).  The synthesizer propagates no computation error:
    for every valid site index it returns its record, and on every input
    for which the computed field magnitude is exactly zero the angle of
    that record is NaN, the arccosine of a quotient by zero. *)
Theorem zero_magnitude_returns_nan (gamma : f64) (cs : list f64)
  (ds : list mat3) (muon_index : Z) :
  List.length ds = List.length cs ->
  (- Z.of_nat (List.length cs) <= muon_index < Z.of_nat (List.length cs))%Z ->
  exists res,
    synthesize gamma cs ds muon_index = Ok res /\
    (B_magnitude res = Fin 0 ->
     theta res = NaN /\ is_nan (theta res) = true).
Proof.
  intros Hlen Hidx.
  destruct (getitem_valid _ cs muon_index Hidx) as (c & Hc & _).
  assert (Hidx' : (- Z.of_nat (List.length ds) <= muon_index
                   < Z.of_nat (List.length ds))%Z) by (rewrite Hlen; exact Hidx).
  destruct (getitem_valid _ ds muon_index Hidx') as (d & Hd & _).
  destruct (synthesize gamma cs ds muon_index) as [res|e] eqn:Hs.
  - exists res. split; [reflexivity|]. intros Hz.
    rewrite (zero_magnitude_nan gamma cs ds muon_index res Hs Hz).
    split; reflexivity.
  - apply synthesize_raise in Hs. destruct Hs as [_ [Hs|Hs]]; congruence.
Qed.

Lemma zero_magnitude_returns_nan_witness :
  exists res,
    synthesize (Fin 1) [Fin 0] [mzero] (-1) = Ok res /\
    B_magnitude res = Fin 0 /\ theta res = NaN.
Proof.
  assert (Hs : exists res,
             synthesize (Fin 1) [Fin 0] [mzero] (-1) = Ok res /\
             B_magnitude res = Fin 0).
  { eexists. split; [reflexivity|]. cbn [B_magnitude]. unfold norm, dot.
    cbn [mmap vmap mzip vzip mrow row0 row1 row2 v0 v1 v2 mzero vzero
         eye3 mul add zero].
    rewrite sqrt_fin by nra. f_equal.
    match goal with |- R_sqrt.sqrt ?s = _ =>
      replace s with 0%R by ring end.
    apply sqrt_0. }
  destruct Hs as (res & Hs & Hz).
  destruct (zero_magnitude_returns_nan (Fin 1) [Fin 0] [mzero] (-1) eq_refl)
    as (res' & Hs' & Hth); [simpl; lia|].
  rewrite Hs in Hs'. inversion Hs'; subst res'.
  exists res. split; [exact Hs|]. split; [exact Hz|].
  exact (proj1 (Hth Hz)).
Defined.

(** C9 as first stated does not hold: on the sample report without
    markers the field magnitude is exactly zero and [get_hyperfine]
    returns a record, whose angle is NaN, instead of raising. *)
Lemma zero_magnitude_not_raised :
  exists res,
    get_hyperfine float_of_string Sample.outcar_no_marker 1 (-1) = Ok res /\
    B_magnitude res = Fin 0 /\
    is_nan (theta res) = true.
Proof.
  destruct no_marker_outcome as (res & Hres & Hz & Hth).
  exists res. repeat split; [exact Hres | exact Hz | now rewrite Hth].
Qed.

(* ------------------------------------------------------------------ *)
(** * The literal scenario *)

Section Scenario.

Local Open Scope R_scope.

Lemma Rabs_le_bounds (a b : R) : Rabs a <= b -> - b <= a <= b.
Proof.
  unfold Rabs. destruct (Rcase_abs a); lra.
Qed.

Lemma sqrt_lower (lo s : R) : 0 <= lo -> lo * lo <= s -> lo <= R_sqrt.sqrt s.
Proof.
  intros H0 H. rewrite <- (sqrt_square lo H0). apply sqrt_le_1_alt. exact H.
Qed.

Lemma sqrt_upper (hi s : R) : 0 <= hi -> s <= hi * hi -> R_sqrt.sqrt s <= hi.
Proof.
  intros H0 H. rewrite <- (sqrt_square hi H0). apply sqrt_le_1_alt. exact H.
Qed.

Lemma acos_upper (q b : R) :
  0 <= b <= PI -> -1 <= q <= 1 -> cos b <= q -> acos q <= b.
Proof.
  intros [Hb0 Hb1] Hq Hc. destruct (Rle_dec (acos q) b) as [H|H]; [exact H|].
  exfalso. pose proof (acos_bound q) as [Ha0 Ha1].
  assert (Hlt : b < acos q) by lra.
  pose proof (cos_decreasing_1 b (acos q) Hb0 Hb1 Ha0 Ha1 Hlt) as Hd.
  rewrite cos_acos in Hd by exact Hq. lra.
Qed.

Lemma acos_lower (q a : R) :
  0 <= a <= PI -> -1 <= q <= 1 -> q <= cos a -> a <= acos q.
Proof.
  intros [Ha0 Ha1] Hq Hc. destruct (Rle_dec a (acos q)) as [H|H]; [exact H|].
  exfalso. pose proof (acos_bound q) as [Hb0 Hb1].
  assert (Hlt : acos q < a) by lra.
  pose proof (cos_decreasing_1 (acos q) a Hb0 Hb1 Ha0 Ha1 Hlt) as Hd.
  rewrite cos_acos in Hd by exact Hq. lra.
Qed.

(** [1 - a^2/2 <= cos a <= 1 - a^2/2 + a^4/24] near zero. *)
Lemma cos_taylor (a : R) :
  -2 <= a <= 2 ->
  1 - a * a / 2 <= cos a <= 1 - a * a / 2 + a * a * a * a / 24.
Proof.
  intros [H1 H2]. pose proof (pre_cos_bound a 0 H1 H2) as [Hlo Hhi].
  unfold cos_approx, cos_term in Hlo, Hhi. simpl in Hlo, Hhi.
  split; lra.
Qed.

(** The gyromagnetic ratio of the muon over 2 pi, in MHz/T. *)
Lemma gamma_bounds : 135.5388957 < 851.616 / (2 * PI) < 135.5388962.
Proof.
  pose proof PI_bounds as [Hl Hu].
  assert (Hk : forall k, k / (2 * PI) * PI = k / 2) by (intros k; field; lra).
  pose proof (Hk 851.616) as Hg. clear Hk.
  set (g := 851.616 / (2 * PI)) in *.
  assert (Hpos : 0 < g).
  { unfold g. apply Rdiv_lt_0_compat; lra. }
  split; nra.
Qed.

(** The length of the unscaled field vector of the scenario. *)
Lemma scenario_length :
  228.032506
  < R_sqrt.sqrt (7.7935 * 7.7935 + 29.2765 * 29.2765 + 226.011 * 226.011)
  < 228.032507.
Proof.
  set (s := 7.7935 * 7.7935 + 29.2765 * 29.2765 + 226.011 * 226.011).
  assert (Hlo : 228.0325061 <= R_sqrt.sqrt s)
    by (apply sqrt_lower; unfold s; lra).
  assert (Hhi : R_sqrt.sqrt s <= 228.03250695)
    by (apply sqrt_upper; unfold s; lra).
  lra.
Qed.

(** The angle of the scenario before scaling to degrees. *)
Lemma scenario_angle (w : R) :
  228.032506 < w < 228.032507 ->
  0.1331 <= acos (226.011 / w) <= 0.1335.
Proof.
  intros [Hl Hu].
  assert (Hk : forall k, k / w * w = k) by (intros k; field; lra).
  pose proof (Hk 226.011) as Hq. clear Hk.
  set (q := 226.011 / w) in *.
  assert (Hqr : 0.99113 <= q <= 0.99114) by (split; nra).
  pose proof PI_bounds as [Hp1 Hp2].
  pose proof (cos_taylor 0.1331 ltac:(lra)) as [Ha _].
  pose proof (cos_taylor 0.1335 ltac:(lra)) as [_ Hb].
  split.
  - apply acos_lower; lra.
  - apply acos_upper; lra.
Qed.

(** Length and angle of a field vector along the one of the scenario,
    [g] times [-7.7935, 29.2765, -226.011]. *)
Lemma scenario_vector (g bx by_ bz : R) :
  0 < g ->
  bx = g * -7.7935 -> by_ = g * 29.2765 -> bz = g * -226.011 ->
  norm (Vec (Fin bx) (Fin by_) (Fin bz))
  = Fin (g * R_sqrt.sqrt (7.7935 * 7.7935 + 29.2765 * 29.2765
                          + 226.011 * 226.011))
  /\
  exists t,
    fold_angle
      (div (mul (Fin 180)
                (arccos (div (dot (Vec (Fin bx) (Fin by_) (Fin bz)) z_axis)
                             (norm (Vec (Fin bx) (Fin by_) (Fin bz))))))
           pi)
    = Fin t /\ 7.55 <= t <= 7.65.
Proof.
  intros Hg Hx Hy Hz.
  pose proof scenario_length as Hw.
  set (w := R_sqrt.sqrt
              (7.7935 * 7.7935 + 29.2765 * 29.2765 + 226.011 * 226.011)) in *.
  assert (Hm : R_sqrt.sqrt (bx * bx + by_ * by_ + bz * bz) = g * w).
  { replace (bx * bx + by_ * by_ + bz * bz)
      with (g * g
            * (7.7935 * 7.7935 + 29.2765 * 29.2765 + 226.011 * 226.011))
      by (subst bx by_ bz; nra).
    rewrite sqrt_mult by nra. rewrite sqrt_square by lra. reflexivity. }
  assert (Hne : R_sqrt.sqrt (bx * bx + by_ * by_ + bz * bz) <> 0)
    by (rewrite Hm; nra).
  assert (Hnorm : norm (Vec (Fin bx) (Fin by_) (Fin bz)) = Fin (g * w)).
  { unfold norm, dot. cbn [v0 v1 v2 mul add].
    rewrite sqrt_fin by nra. now rewrite Hm. }
  split; [exact Hnorm|].
  rewrite (angle_of_finite bx by_ bz Hne), Hm.
  replace ((bx * 0 + by_ * 0 + bz * 1) / (g * w)) with (- (226.011 / w)).
  2:{ assert (Hk : forall k, - (k / w) = (g * - k) / (g * w))
        by (intros k; field; lra).
      rewrite (Hk 226.011). f_equal. subst bz. lra. }
  rewrite acos_opp.
  pose proof (scenario_angle w Hw) as [Ha Hb].
  pose proof PI_bounds as [Hp1 Hp2].
  set (al := acos (226.011 / w)) in *.
  assert (Ht : 180 * (PI - al) / PI * PI = 180 * (PI - al))
    by (field; lra).
  set (t := 180 * (PI - al) / PI) in *.
  unfold fold_angle. rewrite gt_fin_true by nra.
  cbn [sub add neg]. exists (180 + - t). split; [reflexivity|]. split; nra.
Qed.

(** The synthesizer on the scenario, for a ratio [g] in the range of
    [gamma_mu]. *)
Lemma scenario_synthesize (g : R) (cs : list f64) (ds : list mat3)
  (muon_index : Z) :
  135.5388957 < g < 135.5388962 ->
  getitem cs muon_index = Ok (Fin (-1.355)) ->
  getitem ds muon_index
  = Ok (tensor_of_row (Fin 283.547) (Fin 167.119) (Fin (-450.667))
                      (Fin (-28.734)) (Fin (-15.587)) (Fin 58.553)) ->
  exists res,
    synthesize (Fin g) cs ds muon_index = Ok res /\
    approx (v0 (Bfield res)) (-1056.322) 0.001 /\
    approx (v1 (Bfield res)) 3968.104 0.001 /\
    approx (v2 (Bfield res)) (-30633.281) 0.001 /\
    approx (B_magnitude res) 30907.274 0.001 /\
    approx (theta res) 7.6 0.05.
Proof.
  intros [Hg1 Hg2] Hc Hd.
  destruct (synthesize (Fin g) cs ds muon_index) as [res|e] eqn:Hs.
  2:{ apply synthesize_raise in Hs. destruct Hs as [_ [Hs|Hs]]; congruence. }
  exists res. split; [reflexivity|].
  destruct (synthesize_fields _ _ _ _ _ Hs)
    as (c & d & Hc' & Hd' & HAc & HAd & HA & HB & Hmag & Hth).
  rewrite Hc in Hc'. inversion Hc'; subst c.
  rewrite Hd in Hd'. inversion Hd'; subst d.
  set (bx := 0.5 * (-15.587 * g + 0 * (-1.355 * g))).
  set (by_ := 0.5 * (58.553 * g + 0 * (-1.355 * g))).
  set (bz := 0.5 * (-450.667 * g + 1 * (-1.355 * g))).
  assert (HBv : Bfield res = Vec (Fin bx) (Fin by_) (Fin bz))
    by (rewrite HB, HA, HAd, HAc; reflexivity).
  destruct (scenario_vector g bx by_ bz) as (Hnorm & t & Ht & Hr);
    try (unfold bx, by_, bz; lra).
  pose proof scenario_length as Hw.
  rewrite Hth, Hmag, HBv, Ht, Hnorm. cbn [v0 v1 v2].
  unfold approx. repeat split; apply Rabs_le.
  - unfold bx. lra.
  - unfold by_. lra.
  - unfold bz. lra.
  - nra.
  - lra.
Qed.

(** The numbers the notebook prints for this site belong to the scaled
    tensor: when [A_c] is -1.355 and the third row of [A_dip] is
    (-15.587, 58.553, -450.667), the field vector is about
    [-7.793, 29.276, -226.011], its length about 228.0 and the angle
    about 7.6 degrees. *)
Lemma printed_scenario (gamma : f64) (cs : list f64) (ds : list mat3)
  (muon_index : Z) (res : hyperfine) :
  synthesize gamma cs ds muon_index = Ok res ->
  A_c res = Fin (-1.355) ->
  row2 (A_dip res) = Vec (Fin (-15.587)) (Fin 58.553) (Fin (-450.667)) ->
  approx (v0 (Bfield res)) (-7.793) 0.001 /\
  approx (v1 (Bfield res)) 29.276 0.001 /\
  approx (v2 (Bfield res)) (-226.011) 0.001 /\
  approx (B_magnitude res) 228.0 0.05 /\
  approx (theta res) 7.6 0.05.
Proof.
  intros Hs HAc Hrow.
  destruct (synthesize_fields _ _ _ _ _ Hs)
    as (c & d & _ & _ & _ & _ & HA & HB & Hmag & Hth).
  set (bx := 0.5 * (-15.587 + 0 * -1.355)).
  set (by_ := 0.5 * (58.553 + 0 * -1.355)).
  set (bz := 0.5 * (-450.667 + 1 * -1.355)).
  assert (HBv : Bfield res = Vec (Fin bx) (Fin by_) (Fin bz)).
  { rewrite HB, HA, HAc. unfold mzip, mrow. cbn [row2]. rewrite Hrow.
    reflexivity. }
  destruct (scenario_vector 1 bx by_ bz) as (Hnorm & t & Ht & Hr);
    try (unfold bx, by_, bz; lra).
  pose proof scenario_length as Hw.
  rewrite Hth, Hmag, HBv, Ht, Hnorm. cbn [v0 v1 v2].
  unfold approx. repeat split; apply Rabs_le.
  - unfold bx. lra.
  - unfold by_. lra.
  - unfold bz. lra.
  - lra.
  - lra.
Qed.

End Scenario.

(** C1 (as amended).  For a report from which the extractor reads the
    contact value -1.355 and the dipolar row
    (283.547, 167.119, -450.667, -28.734, -15.587, 58.553) for the probe
    site, [get_hyperfine], with its ratio 851.616/(2 pi), returns a record
    with field vector about [-1056.322, 3968.104, -30633.281], field
    magnitude about 30907.274 and angle about 7.6 degrees: vector and
    magnitude are 851.616/(2 pi) = 135.539 times [-7.793, 29.276,
    -226.011] and 228.0, since both parts of the tensor are scaled by the
    ratio before they are combined. *)
Theorem literal_scenario (pyfloat : string -> option f64)
  (outcar : list string) (natoms : nat) (muon_index : Z) (st : scan_state) :
  extract pyfloat natoms outcar = Ok st ->
  getitem (contacts st) muon_index = Ok (Fin (-1.355)) ->
  getitem (dipole_tensors st) muon_index
  = Ok (tensor_of_row (Fin 283.547) (Fin 167.119) (Fin (-450.667))
                      (Fin (-28.734)) (Fin (-15.587)) (Fin 58.553)) ->
  exists res,
    get_hyperfine pyfloat outcar natoms muon_index = Ok res /\
    approx (v0 (Bfield res)) (-1056.322) 0.001 /\
    approx (v1 (Bfield res)) 3968.104 0.001 /\
    approx (v2 (Bfield res)) (-30633.281) 0.001 /\
    approx (B_magnitude res) 30907.274 0.001 /\
    approx (theta res) 7.6 0.05.
Proof.
  intros He Hc Hd. unfold get_hyperfine. rewrite He. cbn [bind].
  rewrite gamma_mu_fin.
  exact (scenario_synthesize _ _ _ _ gamma_bounds Hc Hd).
Qed.

Lemma literal_scenario_witness :
  exists res,
    get_hyperfine float_of_string Sample.outcar 2 (-1) = Ok res /\
    approx (v0 (Bfield res)) (-1056.322) 0.001 /\
    approx (v1 (Bfield res)) 3968.104 0.001 /\
    approx (v2 (Bfield res)) (-30633.281) 0.001 /\
    approx (B_magnitude res) 30907.274 0.001 /\
    approx (theta res) 7.6 0.05.
Proof.
  apply (literal_scenario float_of_string Sample.outcar 2 (-1)
           (State Sample.contacts_expected Sample.dipoles_expected
                  (Some (Fin 2.0000000)))).
  - vm_compute. reflexivity.
  - reflexivity.
  - reflexivity.
Defined.

(** C1 as first stated does not hold: on the sample report, whose last
    site has the contact value and the dipolar row of the scenario, the
    third component of the field vector is below -30000 MHz and the
    magnitude above 30000 MHz, far from -226.011 and 228.0. *)
Lemma literal_scenario_refuted :
  exists res,
    get_hyperfine float_of_string Sample.outcar 2 (-1) = Ok res /\
    ~ approx (v2 (Bfield res)) (-226.011) 1 /\
    ~ approx (B_magnitude res) 228.0 1.
Proof.
  assert (He : extract float_of_string 2 Sample.outcar
               = Ok (State Sample.contacts_expected Sample.dipoles_expected
                           (Some (Fin 2.0000000))))
    by (vm_compute; reflexivity).
  destruct (scenario_synthesize _ Sample.contacts_expected
              Sample.dipoles_expected (-1) gamma_bounds eq_refl eq_refl)
    as (res & Hs & _ & _ & Hz & Hm & _).
  exists res. split.
  - unfold get_hyperfine. rewrite He. cbn [bind contacts dipole_tensors].
    rewrite gamma_mu_fin. exact Hs.
  - unfold approx in *.
    destruct (v2 (Bfield res)) as [z| | |]; try contradiction.
    destruct (B_magnitude res) as [m| | |]; try contradiction.
    apply Rabs_le_bounds in Hz. apply Rabs_le_bounds in Hm.
    split; intros H; apply Rabs_le_bounds in H; lra.
Qed.

(* ------------------------------------------------------------------ *)
(** * Further properties of [get_hyperfine] *)

(** ** The site index *)

Lemma getitem_from_end (T : Type) (l : list T) (i : Z) :
  (- Z.of_nat (List.length l) <= i < 0)%Z ->
  getitem l i = getitem l (i + Z.of_nat (List.length l)).
Proof.
  intros Hi.
  assert (H1 : (i <? 0)%Z = true) by (apply Z.ltb_lt; lia).
  assert (H2 : (i + Z.of_nat (List.length l) <? 0)%Z = false)
    by (apply Z.ltb_ge; lia).
  assert (H3 : (Z.of_nat (List.length l) <=? i + Z.of_nat (List.length l))%Z
               = false) by (apply Z.leb_gt; lia).
  unfold getitem. cbv zeta. rewrite H1, H2. cbv iota. rewrite H2, H3.
  reflexivity.
Qed.



(** X1.  A negative site index counts from the end: for
    [-natoms <= i < 0], and so for the default [-1], the outcome is the
    one for the index [i + natoms], whatever the report holds. *)
Theorem negative_index_counts_from_end (pyfloat : string -> option f64)
  (outcar : list string) (natoms : nat) (i : Z) :
  (- Z.of_nat natoms <= i < 0)%Z ->
  get_hyperfine pyfloat outcar natoms i
  = get_hyperfine pyfloat outcar natoms (i + Z.of_nat natoms).
Proof.
  intros Hi. unfold get_hyperfine.
  destruct (extract pyfloat natoms outcar) as [st|e] eqn:He; [|reflexivity].
  destruct (extract_well_formed pyfloat natoms outcar st He) as (Hc & Hd & _).
  cbn [bind]. unfold synthesize.
  rewrite <- Hc at 1. rewrite <- getitem_from_end by (rewrite Hc; exact Hi).
  destruct (getitem (contacts st) i) as [c|e]; [|reflexivity]. cbn [bind].
  rewrite <- Hd at 1. rewrite <- getitem_from_end by (rewrite Hd; exact Hi).
  reflexivity.
Qed.

Lemma negative_index_counts_from_end_witness :
  get_hyperfine float_of_string Sample.outcar 2 (-1)
  = get_hyperfine float_of_string Sample.outcar 2 1.
Proof.
  apply (negative_index_counts_from_end float_of_string Sample.outcar 2 (-1)).
  simpl. lia.
Defined.



(** X3.  The arrays a successful extraction returns have exactly
    [natoms] entries each, so that every site index in
    [-natoms, natoms) gives a record: no exception is left once the
    report is read. *)
Theorem valid_index_returns_record (pyfloat : string -> option f64)
  (outcar : list string) (natoms : nat) (i : Z) (st : scan_state) :
  extract pyfloat natoms outcar = Ok st ->
  (- Z.of_nat natoms <= i < Z.of_nat natoms)%Z ->
  List.length (contacts st) = natoms /\
  List.length (dipole_tensors st) = natoms /\
  exists res, get_hyperfine pyfloat outcar natoms i = Ok res.
Proof.
  intros He Hi.
  destruct (extract_well_formed pyfloat natoms outcar st He) as (Hc & Hd & _).
  split; [exact Hc|]. split; [exact Hd|].
  unfold get_hyperfine. rewrite He. cbn [bind]. unfold synthesize.
  destruct (getitem_valid _ (contacts st) i) as (c & Hgc & _);
    [rewrite Hc; exact Hi|].
  destruct (getitem_valid _ (dipole_tensors st) i) as (d & Hgd & _);
    [rewrite Hd; exact Hi|].
  rewrite Hgc, Hgd. cbn [bind]. eexists. reflexivity.
Qed.

Lemma valid_index_returns_record_witness :
  exists res, get_hyperfine float_of_string Sample.outcar 2 0 = Ok res.
Proof.
  apply (valid_index_returns_record float_of_string Sample.outcar 2 0
           (State Sample.contacts_expected Sample.dipoles_expected
                  (Some (Fin 2.0000000)))).
  - vm_compute. reflexivity.
  - simpl. lia.
Defined.

(** ** Lines without markers *)

Section MarkerFacts.

Variable pyfloat : string -> option f64.
Variable natoms : nat.

Lemma loop_body_no_marker (line : string) (f : list string) (st : scan_state) :
  no_marker line -> loop_body pyfloat natoms line f st = Ok (f, st).
Proof.
  intros (H1 & H2 & H3).
  unfold loop_body, on_totalspin, on_contact, on_dipole.
  now rewrite H1, H2, H3.
Qed.

Lemma reaches_skip_no_marker (pre g : list string) (st : scan_state) :
  Forall no_marker pre -> reaches pyfloat natoms (pre ++ g) st g st.
Proof.
  induction 1 as [|line pre Hl _ IH]; simpl.
  - apply reaches_here.
  - eapply reaches_next; [apply loop_body_no_marker; exact Hl | exact IH].
Qed.

Lemma for_line_in_f_no_marker (f : list string) (st : scan_state) :
  Forall no_marker f -> for_line_in_f pyfloat natoms f st = Ok st.
Proof.
  intros H. pose proof (reaches_skip_no_marker f [] st H) as Hr.
  rewrite app_nil_r in Hr.
  rewrite (reaches_result pyfloat natoms _ _ _ _ Hr).
  apply for_line_in_f_nil.
Qed.

(** The step taken at a line the scan meets, when the extraction
    succeeds. *)
Lemma meets_step (outcar : list string) (line : string) (f : list string)
  (st st' : scan_state) :
  meets pyfloat natoms outcar line f st ->
  extract pyfloat natoms outcar = Ok st' ->
  exists f1 st1,
    loop_body pyfloat natoms line f st = Ok (f1, st1) /\
    reaches pyfloat natoms f1 st1 [] st'.
Proof.
  intros Hm He. unfold extract in He.
  rewrite (reaches_result pyfloat natoms _ _ _ _ Hm) in He.
  rewrite for_line_in_f_cons in He. bind_inv He. destruct a as [f1 st1].
  simpl in He. exists f1, st1. split; [exact Hm0|].
  apply for_line_in_f_ok. exact He.
Qed.

Lemma reaches_no_contact (f f' : list string) (st st' : scan_state) :
  reaches pyfloat natoms f st f' st' ->
  Forall (fun l => re_contact l = false) f ->
  contacts st' = contacts st.
Proof.
  induction 1 as [|line f st f1 st1 f2 st2 Hb _ IH]; intros Hf; [auto|].
  inversion Hf as [|x l Hline Hrest]; subst.
  pose proof (loop_body_frame _ _ _ _ _ _ _ Hb) as (used & Hu & _).
  unfold loop_body, on_contact in Hb. rewrite Hline in Hb.
  bind_inv Hb. cbn [bind] in Hb.
  apply on_totalspin_arrays in Hm. destruct Hm as [E1 _].
  apply on_dipole_arrays in Hb. destruct Hb as [E2 _].
  subst f. apply Forall_app in Hrest. destruct Hrest as [_ Hf1].
  rewrite (IH Hf1), E2, E1. reflexivity.
Qed.

End MarkerFacts.

(** X4.  Lines without any marker in front of a report, and such lines
    after a report that is read without error, are passed over: the
    arrays read and the outcome of [get_hyperfine] are those of the
    report alone. *)
Theorem lines_without_marker_ignored (pyfloat : string -> option f64)
  (natoms : nat) (i : Z) (pre outcar post : list string) (st : scan_state) :
  Forall no_marker pre -> Forall no_marker post ->
  extract pyfloat natoms outcar = Ok st ->
  extract pyfloat natoms (pre ++ outcar ++ post) = Ok st /\
  get_hyperfine pyfloat (pre ++ outcar ++ post) natoms i
  = get_hyperfine pyfloat outcar natoms i.
Proof.
  intros Hpre Hpost He.
  assert (Hx : extract pyfloat natoms (pre ++ outcar ++ post) = Ok st).
  { unfold extract.
    rewrite (reaches_result pyfloat natoms _ _ _ _
               (reaches_skip_no_marker pyfloat natoms pre (outcar ++ post)
                  (initial_state natoms) Hpre)).
    apply extract_ok_reaches in He.
    destruct (reaches_frame pyfloat natoms _ _ _ _ He) as (pre0 & Hp & Hg).
    rewrite app_nil_r in Hp. subst pre0.
    rewrite (reaches_result pyfloat natoms _ _ _ _ (Hg post)).
    apply for_line_in_f_no_marker. exact Hpost. }
  split; [exact Hx|]. unfold get_hyperfine. now rewrite Hx, He.
Qed.

Lemma lines_without_marker_ignored_witness :
  extract float_of_string 2
    (Sample.outcar_no_marker ++ Sample.outcar ++ Sample.outcar_no_marker)
  = Ok (State Sample.contacts_expected Sample.dipoles_expected
              (Some (Fin 2.0000000))).
Proof.
  apply (proj1 (lines_without_marker_ignored float_of_string 2 (-1)
                  Sample.outcar_no_marker Sample.outcar
                  Sample.outcar_no_marker _
                  ltac:(repeat constructor) ltac:(repeat constructor)
                  ltac:(vm_compute; reflexivity))).
Defined.

(** X5.  When the scan meets a line with the total-spin marker whose last
    token is no number, the whole call fails with [ValueError], although
    the total spin is used for nothing. *)
Theorem bad_total_spin_aborts (pyfloat : string -> option f64)
  (natoms : nat) (i : Z) (outcar : list string) (line : string)
  (rest : list string) (st : scan_state) (tok : string) :
  meets pyfloat natoms outcar line rest st ->
  re_totalspin line = true ->
  last_item (split line) = Ok tok -> pyfloat tok = None ->
  extract pyfloat natoms outcar = Raise ValueError /\
  get_hyperfine pyfloat outcar natoms i = Raise ValueError.
Proof.
  intros Hm Hre Htok Hbad.
  assert (Hb : loop_body pyfloat natoms line rest st = Raise ValueError).
  { unfold loop_body, on_totalspin. rewrite Hre, Htok. cbn [bind].
    unfold float. now rewrite Hbad. }
  pose proof (meets_raise pyfloat natoms _ _ _ _ _ Hm Hb) as Hx.
  split; [exact Hx|]. unfold get_hyperfine. now rewrite Hx.
Qed.

Lemma bad_total_spin_aborts_witness :
  get_hyperfine float_of_string
    (" Total magnetic moment S"%string :: Sample.outcar) 2 (-1)
  = Raise ValueError.
Proof.
  apply (proj2 (bad_total_spin_aborts float_of_string 2 (-1)
                  (" Total magnetic moment S"%string :: Sample.outcar)
                  " Total magnetic moment S" Sample.outcar
                  (initial_state 2) "S"
                  (reaches_here float_of_string 2 _ _)
                  ltac:(vm_compute; reflexivity)
                  ltac:(vm_compute; reflexivity)
                  ltac:(vm_compute; reflexivity))).
Defined.

(** ** Tables *)

Section TableFacts.

Variable pyfloat : string -> option f64.
Variable natoms : nat.

(** The Fermi-contact branch on a complete table. *)
Lemma on_contact_table (hdr l1 l2 l3 : string) (rows rest : list string)
  (st : scan_state) :
  re_contact hdr = true ->
  List.length rows = natoms -> List.length (contacts st) = natoms ->
  on_contact pyfloat natoms hdr (l1 :: l2 :: l3 :: rows ++ rest) st =
  (vals <- traverse (contact_value pyfloat) rows ;;
   Ok (rest, State vals (dipole_tensors st) (totalS st))).
Proof.
  intros Hre Hrows Hc. rewrite <- Hrows in *.
  unfold on_contact. rewrite Hre. cbn [skip_header next bind].
  pose proof (contact_rows_spec pyfloat rows rest [] (contacts st)) as Hs.
  simpl in Hs. rewrite Hs by lia.
  destruct (traverse (contact_value pyfloat) rows) as [vals|e]; simpl;
    [|reflexivity].
  rewrite skipn_all2 by lia. now rewrite app_nil_r.
Qed.

(** The dipolar branch on a complete table. *)
Lemma on_dipole_table (hdr l1 l2 l3 : string) (rows rest : list string)
  (st : scan_state) :
  re_dipole hdr = true ->
  List.length rows = natoms -> List.length (dipole_tensors st) = natoms ->
  on_dipole pyfloat natoms hdr (l1 :: l2 :: l3 :: rows ++ rest) st =
  (ts <- traverse (fun row => row_tensor pyfloat row mzero) rows ;;
   Ok (rest, State (contacts st) ts (totalS st))).
Proof.
  intros Hre Hrows Hd. rewrite <- Hrows in *.
  unfold on_dipole. rewrite Hre. cbn [skip_header next bind].
  pose proof (dipole_rows_spec pyfloat rows rest [] (dipole_tensors st)) as Hs.
  simpl in Hs. rewrite Hs by lia.
  destruct (traverse (fun row => row_tensor pyfloat row mzero) rows)
    as [ts|e]; simpl; [|reflexivity].
  rewrite skipn_all2 by lia. now rewrite app_nil_r.
Qed.

(** The rows before a row that cannot be read do not hide its error. *)
Lemma dipole_rows_row_error (n i : nat) (rows : list string) (row : string)
  (rest : list string) (ds : list mat3) (ts : list mat3) (e : exn) :
  (List.length rows < n)%nat ->
  traverse (fun r => row_tensor pyfloat r mzero) rows = Ok ts ->
  row_tensor pyfloat row mzero = Raise e ->
  dipole_rows pyfloat n i (rows ++ row :: rest) ds = Raise e.
Proof.
  intros Hlen Hrows Hrow. revert n i ds ts Hlen Hrows.
  induction rows as [|r rows IH]; intros n i ds ts Hlen Hrows.
  - destruct n as [|n]; [simpl in Hlen; lia|]. simpl.
    rewrite (row_tensor_any pyfloat row (nth i ds mzero) mzero), Hrow.
    reflexivity.
  - destruct n as [|n]; [simpl in Hlen; lia|]. simpl in *.
    rewrite (row_tensor_any pyfloat r (nth i ds mzero) mzero).
    destruct (row_tensor pyfloat r mzero) as [t|e']; [|discriminate].
    cbn [bind] in *.
    destruct (traverse (fun r0 => row_tensor pyfloat r0 mzero) rows)
      as [ts'|e'] eqn:Ht; [|discriminate].
    apply (IH n (S i) (setitem ds i t) ts'); [lia | reflexivity].
Qed.

End TableFacts.

(** X6.  The values returned are those of the last Fermi-contact table:
    when the scan meets a Fermi-contact header with its [natoms] rows, no
    later line carries that header and the extraction succeeds, the
    contacts returned are the last tokens of these rows, in file order,
    whatever earlier tables held. *)
Theorem last_contact_table_wins (pyfloat : string -> option f64)
  (natoms : nat) (outcar : list string) (hdr l1 l2 l3 : string)
  (rows rest : list string) (st st' : scan_state) :
  meets pyfloat natoms outcar hdr (l1 :: l2 :: l3 :: rows ++ rest) st ->
  re_contact hdr = true -> List.length rows = natoms ->
  Forall (fun l => re_contact l = false) rest ->
  extract pyfloat natoms outcar = Ok st' ->
  traverse (fun row => tok <- last_item (split row) ;; float pyfloat tok) rows
  = Ok (contacts st').
Proof.
  intros Hm Hre Hrows Hrest He.
  destruct (meets_step pyfloat natoms _ _ _ _ _ Hm He)
    as (f1 & st1 & Hb & Hr).
  destruct (meets_well_formed pyfloat natoms _ _ _ _ Hm) as (Hc & _).
  unfold loop_body in Hb. bind_inv Hb. bind_inv Hb. destruct a0 as [f2 st2].
  simpl in Hb.
  apply on_totalspin_arrays in Hm0. destruct Hm0 as [E1 _].
  rewrite on_contact_table in Hm1 by (try rewrite E1; assumption).
  apply bind_ok in Hm1. destruct Hm1 as (vals & Hvals & Hm1).
  inversion Hm1; subst f2 st2; clear Hm1.
  pose proof (on_dipole_frame pyfloat natoms _ _ _ _ _ Hb) as (used & Hu & _).
  apply on_dipole_arrays in Hb. destruct Hb as [E2 _]. simpl in E2.
  rewrite Hu in Hrest. apply Forall_app in Hrest. destruct Hrest as [_ Hf1].
  rewrite (reaches_no_contact pyfloat natoms _ _ _ _ Hr Hf1), E2.
  exact Hvals.
Qed.

Lemma last_contact_table_wins_witness :
  traverse (fun row => tok <- last_item (split row) ;;
                       float float_of_string tok)
    [ "    1      -0.001    -0.002    -0.003     0.131     0.125";
      "    2      -0.500    -0.400    -0.300    -0.155    -1.355" ]%string
  = Ok Sample.contacts_expected.
Proof.
  apply (last_contact_table_wins float_of_string 2
           ([ Sample.contact_header; Sample.rule; Sample.contact_titles;
              Sample.rule;
              "    1       9.000     9.000     9.000     9.000     9.000";
              "    2       8.000     8.000     8.000     8.000     8.000";
              Sample.rule ]%string ++ Sample.outcar)
           Sample.contact_header Sample.rule Sample.contact_titles Sample.rule
           [ "    1      -0.001    -0.002    -0.003     0.131     0.125";
             "    2      -0.500    -0.400    -0.300    -0.155    -1.355"
           ]%string
           (Sample.rule :: ""%string :: Sample.dipole_table ++ [""%string])
           (State [Fin 9.000; Fin 8.000] [mzero; mzero] (Some (Fin 2.0000000)))
           (State Sample.contacts_expected Sample.dipoles_expected
                  (Some (Fin 2.0000000)))).
  - unfold meets. cbn [app]. scan_step. scan_step. scan_step. scan_step.
    apply reaches_here.
  - vm_compute. reflexivity.
  - reflexivity.
  - repeat constructor.
  - vm_compute. reflexivity.
Defined.

(** X7.  The tensors returned are those of the last dipolar table: when
    the scan meets a dipolar header with its [natoms] rows, no later line
    carries that header and the extraction succeeds, the tensors
    returned are those of these rows, in file order. *)
Theorem last_dipole_table_wins (pyfloat : string -> option f64)
  (natoms : nat) (outcar : list string) (hdr l1 l2 l3 : string)
  (rows rest : list string) (st st' : scan_state) :
  meets pyfloat natoms outcar hdr (l1 :: l2 :: l3 :: rows ++ rest) st ->
  re_contact hdr = false -> re_dipole hdr = true ->
  List.length rows = natoms ->
  Forall (fun l => re_dipole l = false) rest ->
  extract pyfloat natoms outcar = Ok st' ->
  traverse (fun row => row_tensor pyfloat row mzero) rows
  = Ok (dipole_tensors st').
Proof.
  intros Hm Hrc Hrd Hrows Hrest He.
  destruct (meets_step pyfloat natoms _ _ _ _ _ Hm He)
    as (f1 & st1 & Hb & Hr).
  destruct (meets_well_formed pyfloat natoms _ _ _ _ Hm) as (_ & Hd & _).
  unfold loop_body in Hb. bind_inv Hb.
  apply on_totalspin_arrays in Hm0. destruct Hm0 as [_ E1].
  unfold on_contact in Hb. rewrite Hrc in Hb. cbn [bind] in Hb.
  rewrite on_dipole_table in Hb by (try rewrite E1; assumption).
  apply bind_ok in Hb. destruct Hb as (ts & Hts & Hb).
  inversion Hb; subst f1 st1; clear Hb.
  destruct (reaches_no_dipole pyfloat natoms _ _ _ _ Hr Hrest) as [E2 _].
  rewrite E2. exact Hts.
Qed.

Lemma last_dipole_table_wins_witness :
  traverse (fun row => row_tensor float_of_string row mzero)
    [ "    1       1.000     2.000    -3.000     0.500     0.250    -0.750";
      "    2     283.547   167.119  -450.667   -28.734   -15.587    58.553"
    ]%string
  = Ok Sample.dipoles_expected.
Proof.
  apply (last_dipole_table_wins float_of_string 2
           ([ Sample.dipole_header; Sample.rule; Sample.dipole_titles;
              Sample.rule;
              "    1  9.000  9.000  9.000  9.000  9.000  9.000";
              "    2  8.000  8.000  8.000  8.000  8.000  8.000";
              Sample.rule ]%string ++ Sample.dipole_table)
           Sample.dipole_header Sample.rule Sample.dipole_titles Sample.rule
           [ "    1       1.000     2.000    -3.000     0.500     0.250    -0.750";
             "    2     283.547   167.119  -450.667   -28.734   -15.587    58.553"
           ]%string
           [Sample.rule]
           (State [zero; zero]
                  [ tensor_of_row (Fin 9.000) (Fin 9.000) (Fin 9.000)
                                  (Fin 9.000) (Fin 9.000) (Fin 9.000);
                    tensor_of_row (Fin 8.000) (Fin 8.000) (Fin 8.000)
                                  (Fin 8.000) (Fin 8.000) (Fin 8.000) ]
                  None)
           (State [zero; zero] Sample.dipoles_expected None)).
  - unfold meets. cbn [app]. scan_step. scan_step. apply reaches_here.
  - vm_compute. reflexivity.
  - vm_compute. reflexivity.
  - reflexivity.
  - repeat constructor.
  - vm_compute. reflexivity.
Defined.

(** X8.  A dipolar row all of whose tokens are numbers but which has
    fewer than seven of them raises [IndexError]: when the scan meets the
    dipolar header, the rows before that row are read without error and
    the header line carries no other marker, the extraction and
    [get_hyperfine] fail with [IndexError]. *)
Theorem short_dipolar_row_raises (pyfloat : string -> option f64)
  (natoms : nat) (i : Z) (outcar : list string) (hdr l1 l2 l3 : string)
  (rows : list string) (row : string) (rest : list string)
  (st : scan_state) (ts : list mat3) (vals : list f64) :
  meets pyfloat natoms outcar hdr (l1 :: l2 :: l3 :: rows ++ row :: rest) st ->
  re_totalspin hdr = false -> re_contact hdr = false ->
  re_dipole hdr = true ->
  (List.length rows < natoms)%nat ->
  traverse (fun r => row_tensor pyfloat r mzero) rows = Ok ts ->
  map pyfloat (split row) = map Some vals ->
  (List.length vals < 7)%nat ->
  extract pyfloat natoms outcar = Raise IndexError /\
  get_hyperfine pyfloat outcar natoms i = Raise IndexError.
Proof.
  intros Hm Hts Hrc Hrd Hlen Hrows Hvals Hshort.
  assert (Hrow : row_tensor pyfloat row mzero = Raise IndexError).
  { rewrite row_tensor_spec.
    rewrite (proj2 (traverse_float_ok pyfloat (split row) vals) Hvals).
    cbn [bind].
    destruct vals as [|a0 [|a1 [|a2 [|a3 [|a4 [|a5 [|a6 vals]]]]]]];
      try reflexivity. simpl in Hshort. lia. }
  assert (Hb : loop_body pyfloat natoms hdr
                 (l1 :: l2 :: l3 :: rows ++ row :: rest) st
               = Raise IndexError).
  { unfold loop_body, on_totalspin, on_contact, on_dipole.
    rewrite Hts, Hrc, Hrd. cbn [bind skip_header next].
    now rewrite (dipole_rows_row_error pyfloat natoms 0 rows row rest
                   (dipole_tensors st) ts IndexError Hlen Hrows Hrow). }
  pose proof (meets_raise pyfloat natoms _ _ _ _ _ Hm Hb) as Hx.
  split; [exact Hx|]. unfold get_hyperfine. now rewrite Hx.
Qed.

Lemma short_dipolar_row_raises_witness :
  get_hyperfine float_of_string
    [ Sample.dipole_header; Sample.rule; Sample.dipole_titles; Sample.rule;
      "    1       1.000     2.000    -3.000     0.500     0.250    -0.750";
      "    2     283.547   167.119  -450.667   -28.734   -15.587"
    ]%string 2 (-1)
  = Raise IndexError.
Proof.
  apply (proj2 (short_dipolar_row_raises float_of_string 2 (-1) _
    Sample.dipole_header Sample.rule Sample.dipole_titles Sample.rule
    [ "    1       1.000     2.000    -3.000     0.500     0.250    -0.750"
    ]%string
    "    2     283.547   167.119  -450.667   -28.734   -15.587"
    [] (initial_state 2)
    [ tensor_of_row (Fin 1.000) (Fin 2.000) (Fin (-3.000))
                    (Fin 0.500) (Fin 0.250) (Fin (-0.750)) ]
    [ Fin 2; Fin 283.547; Fin 167.119; Fin (-450.667); Fin (-28.734);
      Fin (-15.587) ]
    (reaches_here float_of_string 2 _ _)
    ltac:(vm_compute; reflexivity) ltac:(vm_compute; reflexivity)
    ltac:(vm_compute; reflexivity) (Nat.lt_succ_diag_r 1)
    ltac:(vm_compute; reflexivity) ltac:(vm_compute; reflexivity)
    ltac:(simpl; lia))).
Defined.

(** ** The record *)

Section RecordFacts.

Local Open Scope R_scope.

(** The third row of the combined tensor. *)
Lemma synthesize_third_row (gamma : f64) (cs : list f64) (ds : list mat3)
  (i : Z) (res : hyperfine) (c : f64) (d : mat3) :
  synthesize gamma cs ds i = Ok res ->
  getitem cs i = Ok c -> getitem ds i = Ok d ->
  A_c res = mul c gamma /\
  Bfield res
  = Vec (mul (Fin 0.5)
             (add (mul (v0 (row2 d)) gamma) (mul (Fin 0) (mul c gamma))))
        (mul (Fin 0.5)
             (add (mul (v1 (row2 d)) gamma) (mul (Fin 0) (mul c gamma))))
        (mul (Fin 0.5)
             (add (mul (v2 (row2 d)) gamma) (mul (Fin 1) (mul c gamma)))).
Proof.
  intros Hs Hc Hd.
  destruct (synthesize_fields _ _ _ _ _ Hs)
    as (c' & d' & Hc' & Hd' & HAc & HAd & HA & HB & _).
  rewrite Hc in Hc'. inversion Hc'; subst c'.
  rewrite Hd in Hd'. inversion Hd'; subst d'.
  split; [exact HAc|]. rewrite HB, HA, HAd, HAc. reflexivity.
Qed.

End RecordFacts.

(** X9.  A report none of whose lines carries a marker -- the empty
    report among them -- is read without error and leaves the arrays at
    zero; for every site index in range [get_hyperfine] then returns a
    record with a zero field vector, magnitude zero and NaN as the
    angle. *)
Theorem report_without_markers (pyfloat : string -> option f64)
  (outcar : list string) (natoms : nat) (i : Z) :
  Forall no_marker outcar ->
  (- Z.of_nat natoms <= i < Z.of_nat natoms)%Z ->
  extract pyfloat natoms outcar = Ok (initial_state natoms) /\
  exists res,
    get_hyperfine pyfloat outcar natoms i = Ok res /\
    Bfield res = Vec (Fin 0) (Fin 0) (Fin 0) /\
    B_magnitude res = Fin 0 /\ theta res = NaN.
Proof.
  intros Hno Hi.
  assert (He : extract pyfloat natoms outcar = Ok (initial_state natoms))
    by (apply for_line_in_f_no_marker; exact Hno).
  split; [exact He|].
  unfold get_hyperfine. rewrite He. cbn [bind initial_state contacts
                                          dipole_tensors].
  assert (Hc : getitem (repeat zero natoms) i = Ok zero).
  { destruct (getitem_valid _ (repeat zero natoms) i) as (c & Hg & Hn);
      [rewrite repeat_length; exact Hi|].
    apply nth_error_In, repeat_spec in Hn. now subst c. }
  assert (Hd : getitem (repeat mzero natoms) i = Ok mzero).
  { destruct (getitem_valid _ (repeat mzero natoms) i) as (d & Hg & Hn);
      [rewrite repeat_length; exact Hi|].
    apply nth_error_In, repeat_spec in Hn. now subst d. }
  destruct (synthesize gamma_mu (repeat zero natoms) (repeat mzero natoms) i)
    as [res|e] eqn:Hs.
  2:{ apply synthesize_raise in Hs. destruct Hs as [_ [Hs|Hs]]; congruence. }
  exists res. split; [reflexivity|].
  destruct (synthesize_third_row _ _ _ _ _ _ _ Hs Hc Hd) as [_ HB].
  rewrite gamma_mu_fin in HB.
  cbn [mzero vzero row2 v0 v1 v2 zero mul add] in HB. unfold zero in HB.
  cbn [mul add] in HB.
  assert (Hb : Bfield res = Vec (Fin 0) (Fin 0) (Fin 0)).
  { rewrite HB. f_equal; f_equal; lra. }
  assert (Hz : B_magnitude res = Fin 0).
  { destruct (synthesize_fields _ _ _ _ _ Hs)
      as (c & d & _ & _ & _ & _ & _ & _ & Hmag & _).
    rewrite Hmag, Hb. unfold norm, dot. cbn [v0 v1 v2 mul add].
    rewrite sqrt_fin by nra. f_equal.
    match goal with |- R_sqrt.sqrt ?s = _ =>
      replace s with 0%R by nra end.
    apply sqrt_0. }
  pose proof (zero_magnitude_nan _ _ _ _ _ Hs Hz) as Hth.
  auto.
Qed.

Lemma report_without_markers_witness :
  extract float_of_string 3 [] = Ok (initial_state 3) /\
  exists res,
    get_hyperfine float_of_string [] 3 (-1) = Ok res /\
    Bfield res = Vec (Fin 0) (Fin 0) (Fin 0) /\
    B_magnitude res = Fin 0 /\ theta res = NaN.
Proof.
  apply (report_without_markers float_of_string [] 3 (-1)).
  - constructor.
  - simpl. lia.
Defined.

(** X10.  Field vector, magnitude and angle are made from the contact
    value and the third row of the site's tensor alone: two arrays of
    tensors whose tensors at the site agree on the row (xz, yz, zz) give
    the same [A_c], [Bfield], [B_magnitude] and [theta], whatever their
    entries xx, yy and xy are. *)
Theorem field_reads_third_row_only (gamma : f64) (cs : list f64)
  (ds ds' : list mat3) (i : Z) (d d' : mat3) (res res' : hyperfine) :
  getitem ds i = Ok d -> getitem ds' i = Ok d' ->
  row2 d = row2 d' ->
  synthesize gamma cs ds i = Ok res ->
  synthesize gamma cs ds' i = Ok res' ->
  A_c res = A_c res' /\ Bfield res = Bfield res' /\
  B_magnitude res = B_magnitude res' /\ theta res = theta res'.
Proof.
  intros Hd Hd' Hrow Hs Hs'.
  destruct (synthesize_fields _ _ _ _ _ Hs)
    as (c & d0 & Hc & _ & _ & _ & _ & _ & Hmag & Hth).
  destruct (synthesize_fields _ _ _ _ _ Hs')
    as (c' & d0' & Hc' & _ & _ & _ & _ & _ & Hmag' & Hth').
  rewrite Hc in Hc'. inversion Hc'; subst c'.
  destruct (synthesize_third_row _ _ _ _ _ _ _ Hs Hc Hd) as [HA HB].
  destruct (synthesize_third_row _ _ _ _ _ _ _ Hs' Hc Hd') as [HA' HB'].
  assert (EB : Bfield res = Bfield res') by (rewrite HB, HB', Hrow; reflexivity).
  assert (EM : B_magnitude res = B_magnitude res')
    by (rewrite Hmag, Hmag', EB; reflexivity).
  repeat split.
  - now rewrite HA, HA'.
  - exact EB.
  - exact EM.
  - now rewrite Hth, Hth', EB, EM.
Qed.

Lemma field_reads_third_row_only_witness :
  exists res res',
    synthesize gamma_mu [Fin 1] [mzero] 0 = Ok res /\
    synthesize gamma_mu [Fin 1]
      [tensor_of_row (Fin 5) (Fin 7) (Fin 0) (Fin 3) (Fin 0) (Fin 0)] 0
    = Ok res' /\
    Bfield res = Bfield res' /\ theta res = theta res'.
Proof.
  do 2 eexists. split; [reflexivity|]. split; [reflexivity|].
  destruct (field_reads_third_row_only gamma_mu [Fin 1] [mzero]
              [tensor_of_row (Fin 5) (Fin 7) (Fin 0) (Fin 3) (Fin 0) (Fin 0)]
              0 mzero
              (tensor_of_row (Fin 5) (Fin 7) (Fin 0) (Fin 3) (Fin 0) (Fin 0))
              _ _ eq_refl eq_refl eq_refl eq_refl eq_refl)
    as (_ & HB & _ & Hth).
  split; [exact HB | exact Hth].
Defined.

Lemma mmap_symmetric (g : f64 -> f64) (m : mat3) :
  symmetric m -> symmetric (mmap g m).
Proof.
  intros Hm i j Hi Hj. specialize (Hm i j Hi Hj).
  destruct i as [|[|[|i]]]; try lia; destruct j as [|[|[|j]]]; try lia;
    unfold mget, mrow, vget, mmap, vmap in *; cbn [row0 row1 row2 v0 v1 v2];
    congruence.
Qed.

Lemma mzip_symmetric (g : f64 -> f64 -> f64) (m n : mat3) :
  symmetric m -> symmetric n -> symmetric (mzip g m n).
Proof.
  intros Hm Hn i j Hi Hj.
  specialize (Hm i j Hi Hj). specialize (Hn i j Hi Hj).
  destruct i as [|[|[|i]]]; try lia; destruct j as [|[|[|j]]]; try lia;
    unfold mget, mrow, vget, mzip, vzip in *; cbn [row0 row1 row2 v0 v1 v2];
    congruence.
Qed.

Lemma eye3_symmetric : symmetric eye3.
Proof.
  intros i j Hi Hj.
  destruct i as [|[|[|i]]]; try lia; destruct j as [|[|[|j]]]; try lia;
    reflexivity.
Qed.

Lemma getitem_In (T : Type) (l : list T) (i : Z) (a : T) :
  getitem l i = Ok a -> In a l.
Proof.
  unfold getitem, item. destruct (_ || _)%bool; [discriminate|].
  destruct (nth_error l _) as [b|] eqn:Hn; [|discriminate].
  intros H; inversion H; subst. eapply nth_error_In; eauto.
Qed.

(** X11.  The two tensors of every record [get_hyperfine] returns are
    symmetric: the scaled dipolar tensor [A_dip] and the combined tensor
    [A], whatever the report holds. *)
Theorem returned_tensors_symmetric (pyfloat : string -> option f64)
  (outcar : list string) (natoms : nat) (i : Z) (res : hyperfine) :
  get_hyperfine pyfloat outcar natoms i = Ok res ->
  (forall j k, (j < 3)%nat -> (k < 3)%nat ->
     mget (A_dip res) j k = mget (A_dip res) k j) /\
  (forall j k, (j < 3)%nat -> (k < 3)%nat ->
     mget (A res) j k = mget (A res) k j).
Proof.
  unfold get_hyperfine. intros H. bind_inv H.
  destruct (extract_well_formed pyfloat natoms outcar a Hm) as (_ & _ & Hsym).
  destruct (synthesize_fields _ _ _ _ _ H)
    as (c & d & _ & Hd & _ & HAd & HA & _).
  apply getitem_In in Hd. rewrite Forall_forall in Hsym.
  pose proof (Hsym d Hd) as Hds.
  assert (S1 : symmetric (A_dip res))
    by (rewrite HAd; apply mmap_symmetric; exact Hds).
  split; [exact S1|].
  rewrite HA. apply mzip_symmetric; [exact S1|].
  apply mmap_symmetric, eye3_symmetric.
Qed.

Lemma returned_tensors_symmetric_witness :
  exists res,
    get_hyperfine float_of_string Sample.outcar 2 (-1) = Ok res /\
    mget (A res) 0 2 = mget (A res) 2 0.
Proof.
  destruct (get_hyperfine float_of_string Sample.outcar 2 (-1))
    as [res|e] eqn:Hs.
  - exists res. split; [reflexivity|].
    apply (proj2 (returned_tensors_symmetric float_of_string Sample.outcar 2
                    (-1) res Hs)); lia.
  - exfalso.
    assert (He : extract float_of_string 2 Sample.outcar
                 = Ok (State Sample.contacts_expected Sample.dipoles_expected
                             (Some (Fin 2.0000000))))
      by (vm_compute; reflexivity).
    unfold get_hyperfine in Hs. rewrite He in Hs. cbn [bind] in Hs.
    apply synthesize_raise in Hs. destruct Hs as [_ [Hs|Hs]];
      vm_compute in Hs; discriminate.
Defined.

(** X12.  The contact term enters the diagonal only.  In a record whose
    [A_c] is a finite number, every entry of [A] off the diagonal is the
    entry of [A_dip] at the same place, and every entry on the diagonal
    is the sum of that entry and [A_c], as the program adds them.  In a
    record whose [A_c] is an infinity or NaN, every entry of [A] off the
    diagonal is NaN: it is the entry of [A_dip] plus [0 * A_c]. *)
Theorem contact_on_diagonal_only (gamma : f64) (cs : list f64)
  (ds : list mat3) (i : Z) (res : hyperfine) (j k : nat) :
  synthesize gamma cs ds i = Ok res ->
  (j < 3)%nat -> (k < 3)%nat ->
  (forall c, A_c res = Fin c ->
     mget (A res) j k
     = if (j =? k)%nat then add (mget (A_dip res) j k) (Fin c)
       else mget (A_dip res) j k) /\
  ((forall c, A_c res <> Fin c) -> j <> k -> mget (A res) j k = NaN).
Proof.
  intros Hs Hj Hk.
  destruct (synthesize_fields _ _ _ _ _ Hs)
    as (c0 & d & _ & _ & _ & _ & HA & _).
  assert (HE : mget (A res) j k
               = add (mget (A_dip res) j k)
                     (mul (if (j =? k)%nat then Fin 1 else Fin 0)
                          (A_c res))).
  { rewrite HA.
    destruct j as [|[|[|j]]]; try lia; destruct k as [|[|[|k]]]; try lia;
      reflexivity. }
  rewrite HE. split.
  - intros c Hc. rewrite Hc. destruct (j =? k)%nat.
    + now rewrite mul_one_fin.
    + now rewrite mul_zero_fin, add_zero_r.
  - intros Hnf Hjk. destruct (j =? k)%nat eqn:E.
    + apply Nat.eqb_eq in E. contradiction.
    + now rewrite (mul_zero_not_fin _ Hnf), add_nan_r.
Qed.

Lemma contact_on_diagonal_only_witness :
  (exists res,
     synthesize (Fin 2) [Fin 3] [mzero] 0 = Ok res /\
     mget (A res) 2 2 = add (mget (A_dip res) 2 2) (Fin (3 * 2)) /\
     mget (A res) 0 1 = mget (A_dip res) 0 1) /\
  (exists res,
     synthesize (Fin 2) [NaN] [mzero] 0 = Ok res /\
     mget (A res) 0 1 = NaN).
Proof.
  split.
  - eexists. split; [reflexivity|]. split.
    + apply (proj1 (contact_on_diagonal_only (Fin 2) [Fin 3] [mzero] 0 _ 2 2
                      eq_refl ltac:(lia) ltac:(lia)) (3 * 2)%R).
      reflexivity.
    + apply (proj1 (contact_on_diagonal_only (Fin 2) [Fin 3] [mzero] 0 _ 0 1
                      eq_refl ltac:(lia) ltac:(lia)) (3 * 2)%R).
      reflexivity.
  - eexists. split; [reflexivity|].
    apply (proj2 (contact_on_diagonal_only (Fin 2) [NaN] [mzero] 0 _ 0 1
                    eq_refl ltac:(lia) ltac:(lia))).
    + intros c H. discriminate H.
    + lia.
Defined.

(** X14.  A field vector along the axis z whose magnitude is [|Bz|], in
    either direction, has the angle 0: the quotient is 1 or -1, and the
    angle 180 of the second case is folded to 0. *)
Theorem field_along_axis_angle_zero (gamma : f64) (cs : list f64)
  (ds : list mat3) (i : Z) (res : hyperfine) (z : R) :
  synthesize gamma cs ds i = Ok res ->
  Bfield res = Vec (Fin 0) (Fin 0) (Fin z) -> z <> 0%R ->
  B_magnitude res = Fin (Rabs z) ->
  theta res = Fin 0.
Proof.
  intros Hs Hv Hz Hm.
  destruct (synthesize_fields _ _ _ _ _ Hs)
    as (c & d & _ & _ & _ & _ & _ & _ & _ & Hth).
  pose proof (Rabs_no_R0 z Hz) as Hne. pose proof PI_RGT_0 as Hpi.
  rewrite Hth, Hv, Hm. unfold dot, z_axis. cbn [v0 v1 v2 mul add].
  rewrite div_fin by exact Hne.
  unfold Rabs in *. destruct (Rcase_abs z) as [Hneg|Hpos].
  - replace ((0 * 0 + 0 * 0 + z * 1) / - z)%R with (Ropp 1) by (field; lra).
    rewrite arccos_fin by lra. rewrite acos_opp, acos_1.
    cbn [mul]. unfold pi. rewrite div_fin by lra.
    replace (180 * (PI - 0) / PI)%R with 180%R by (field; lra).
    unfold fold_angle. rewrite gt_fin_true by lra.
    cbn [sub add neg]. f_equal. lra.
  - replace ((0 * 0 + 0 * 0 + z * 1) / z)%R with 1%R by (field; lra).
    rewrite arccos_fin by lra. rewrite acos_1.
    cbn [mul]. unfold pi. rewrite div_fin by lra.
    replace (180 * 0 / PI)%R with 0%R by (field; lra).
    unfold fold_angle. rewrite gt_fin_false by lra. reflexivity.
Qed.

Lemma field_along_axis_angle_zero_witness :
  exists res,
    synthesize (Fin 2) [Fin (-3)] [mzero] 0 = Ok res /\
    theta res = Fin 0.
Proof.
  eexists. split; [reflexivity|].
  refine (field_along_axis_angle_zero (Fin 2) [Fin (-3)] [mzero] 0 _
            (0.5 * (0 * 2 + 1 * (-3 * 2)))%R eq_refl _ _ _).
  - cbn [Bfield]. unfold mmap, mzip, mrow, eye3, vmap, vzip, mzero, vzero,
      zero. cbn [row0 row1 row2 v0 v1 v2 mul add].
    f_equal; f_equal; lra.
  - lra.
  - cbn [B_magnitude]. unfold norm, dot, mmap, mzip, mrow, eye3, vmap, vzip,
      mzero, vzero, zero. cbn [row0 row1 row2 v0 v1 v2 mul add].
    rewrite sqrt_fin by nra. f_equal.
    rewrite <- sqrt_Rsqr_abs. f_equal. unfold Rsqr. lra.
Defined.

(** X15.  A field vector without component along the axis z whose
    magnitude is a number other than zero has the angle 90. *)
Theorem field_across_axis_angle_ninety (gamma : f64) (cs : list f64)
  (ds : list mat3) (i : Z) (res : hyperfine) (x y m : R) :
  synthesize gamma cs ds i = Ok res ->
  Bfield res = Vec (Fin x) (Fin y) (Fin 0) ->
  B_magnitude res = Fin m -> m <> 0%R ->
  theta res = Fin 90.
Proof.
  intros Hs Hv Hm Hne.
  destruct (synthesize_fields _ _ _ _ _ Hs)
    as (c & d & _ & _ & _ & _ & _ & _ & _ & Hth).
  pose proof PI_RGT_0 as Hpi.
  rewrite Hth, Hv, Hm. unfold dot, z_axis. cbn [v0 v1 v2 mul add].
  rewrite div_fin by exact Hne.
  replace ((x * 0 + y * 0 + 0 * 1) / m)%R with 0%R by (field; exact Hne).
  rewrite arccos_fin by lra. rewrite acos_0.
  cbn [mul]. unfold pi. rewrite div_fin by lra.
  replace (180 * (PI / 2) / PI)%R with 90%R by (field; lra).
  unfold fold_angle. rewrite gt_fin_false by lra. reflexivity.
Qed.

Lemma field_across_axis_angle_ninety_witness :
  exists res,
    synthesize (Fin 2) [Fin 0]
      [tensor_of_row (Fin 0) (Fin 0) (Fin 0) (Fin 0) (Fin 1) (Fin 0)] 0
    = Ok res /\
    theta res = Fin 90.
Proof.
  eexists. split; [reflexivity|].
  refine (field_across_axis_angle_ninety (Fin 2) [Fin 0]
            [tensor_of_row (Fin 0) (Fin 0) (Fin 0) (Fin 0) (Fin 1) (Fin 0)]
            0 _ (0.5 * (1 * 2 + 0 * (0 * 2)))%R 0%R 1%R eq_refl _ _ _).
  - cbn [Bfield]. unfold tensor_of_row, mmap, mzip, mrow, eye3, vmap, vzip.
    cbn [row0 row1 row2 v0 v1 v2 mul add].
    f_equal; f_equal; lra.
  - cbn [B_magnitude]. unfold norm, dot, tensor_of_row, mmap, mzip, mrow,
      eye3, vmap, vzip. cbn [row0 row1 row2 v0 v1 v2 mul add].
    rewrite sqrt_fin by nra. f_equal.
    transitivity (R_sqrt.sqrt 1); [f_equal; lra | apply sqrt_1].
  - lra.
Defined.

(** ** A whole report *)

Section ReportFacts.

Variable pyfloat : string -> option f64.
Variable natoms : nat.

Lemma reaches_append (f1 f2 f3 : list string) (s1 s2 s3 : scan_state) :
  reaches pyfloat natoms f1 s1 f2 s2 ->
  reaches pyfloat natoms f2 s2 f3 s3 ->
  reaches pyfloat natoms f1 s1 f3 s3.
Proof.
  induction 1 as [|line f st fa sa fb sb Hb _ IH]; intros H2; [exact H2|].
  eapply reaches_next; [exact Hb | exact (IH H2)].
Qed.

Lemma loop_body_plain (line : string) (f : list string) (st : scan_state) :
  plain_line pyfloat line ->
  exists st', loop_body pyfloat natoms line f st = Ok (f, st') /\
              contacts st' = contacts st /\
              dipole_tensors st' = dipole_tensors st.
Proof.
  intros [[Hc Hd] Hs]. unfold loop_body, on_contact, on_dipole.
  rewrite Hc, Hd. unfold on_totalspin.
  destruct (re_totalspin line).
  - destruct (Hs eq_refl) as (tok & s & Htok & Hv).
    rewrite Htok. cbn [bind]. unfold float. rewrite Hv. cbn [bind].
    eexists. split; [reflexivity|]. split; reflexivity.
  - cbn [bind]. exists st. auto.
Qed.

Lemma reaches_plain (pre g : list string) (st : scan_state) :
  Forall (plain_line pyfloat) pre ->
  exists st', reaches pyfloat natoms (pre ++ g) st g st' /\
              contacts st' = contacts st /\
              dipole_tensors st' = dipole_tensors st.
Proof.
  intros H. revert st. induction H as [|line pre Hl _ IH]; intros st.
  - exists st. split; [apply reaches_here | auto].
  - destruct (loop_body_plain line (pre ++ g) st Hl) as (st1 & Hb & E1 & E2).
    destruct (IH st1) as (st2 & Hr & E3 & E4).
    exists st2. split.
    + simpl. eapply reaches_next; [exact Hb | exact Hr].
    + split; congruence.
Qed.

End ReportFacts.

(** X17.  A report in the layout of VASP is read whole: lines without
    table header, total-spin lines with a number at their end among
    them, then the Fermi-contact header, three lines and [natoms]
    readable rows, again such lines, the dipolar header, three lines and
    [natoms] readable rows, and such lines to the end.  The extraction
    succeeds, the contacts are the last tokens of the contact rows and
    the tensors those of the dipolar rows, both in file order. *)
Theorem laid_out_report_is_read (pyfloat : string -> option f64)
  (natoms : nat) (pre mid post crows drows : list string)
  (chdr c1 c2 c3 dhdr d1 d2 d3 : string)
  (vals : list f64) (ts : list mat3) :
  Forall (plain_line pyfloat) pre ->
  Forall (plain_line pyfloat) mid ->
  Forall (plain_line pyfloat) post ->
  re_totalspin chdr = false -> re_contact chdr = true ->
  re_dipole chdr = false ->
  re_totalspin dhdr = false -> re_contact dhdr = false ->
  re_dipole dhdr = true ->
  List.length crows = natoms -> List.length drows = natoms ->
  traverse (fun row => tok <- last_item (split row) ;; float pyfloat tok)
           crows = Ok vals ->
  traverse (fun row => row_tensor pyfloat row mzero) drows = Ok ts ->
  exists st,
    extract pyfloat natoms
      (pre ++ chdr :: c1 :: c2 :: c3 :: crows
           ++ mid ++ dhdr :: d1 :: d2 :: d3 :: drows ++ post)
    = Ok st /\
    contacts st = vals /\ dipole_tensors st = ts.
Proof.
  intros Hpre Hmid Hpost Hc1 Hc2 Hc3 Hd1 Hd2 Hd3 Hcl Hdl Hvals Hts.
  destruct (reaches_plain pyfloat natoms pre
              (chdr :: c1 :: c2 :: c3 :: crows
                 ++ mid ++ dhdr :: d1 :: d2 :: d3 :: drows ++ post)
              (initial_state natoms) Hpre) as (s1 & R1 & E1c & E1d).
  cbn [initial_state contacts dipole_tensors] in E1c, E1d.
  assert (B1 : loop_body pyfloat natoms chdr
                 (c1 :: c2 :: c3 :: crows
                    ++ mid ++ dhdr :: d1 :: d2 :: d3 :: drows ++ post) s1
               = Ok (mid ++ dhdr :: d1 :: d2 :: d3 :: drows ++ post,
                     State vals (dipole_tensors s1) (totalS s1))).
  { unfold loop_body, on_totalspin. rewrite Hc1. cbn [bind].
    rewrite on_contact_table
      by (try assumption; rewrite E1c; apply repeat_length).
    fold (contact_value pyfloat) in Hvals. rewrite Hvals. cbn [bind].
    unfold on_dipole. now rewrite Hc3. }
  destruct (reaches_plain pyfloat natoms mid
              (dhdr :: d1 :: d2 :: d3 :: drows ++ post)
              (State vals (dipole_tensors s1) (totalS s1)) Hmid)
    as (s2 & R2 & E2c & E2d).
  cbn [contacts dipole_tensors] in E2c, E2d.
  assert (B2 : loop_body pyfloat natoms dhdr
                 (d1 :: d2 :: d3 :: drows ++ post) s2
               = Ok (post, State (contacts s2) ts (totalS s2))).
  { unfold loop_body, on_totalspin, on_contact. rewrite Hd1, Hd2.
    cbn [bind].
    rewrite on_dipole_table
      by (try assumption; rewrite E2d, E1d; apply repeat_length).
    rewrite Hts. reflexivity. }
  destruct (reaches_plain pyfloat natoms post []
              (State (contacts s2) ts (totalS s2)) Hpost)
    as (s3 & R3 & E3c & E3d).
  rewrite app_nil_r in R3. cbn [contacts dipole_tensors] in E3c, E3d.
  exists s3. split; [|split; congruence].
  apply extract_ok_reaches.
  eapply reaches_append; [exact R1|].
  eapply reaches_next; [exact B1|].
  eapply reaches_append; [exact R2|].
  eapply reaches_next; [exact B2 | exact R3].
Qed.

Lemma laid_out_report_is_read_witness :
  exists st,
    extract float_of_string 2 Sample.outcar = Ok st /\
    contacts st = Sample.contacts_expected /\
    dipole_tensors st = Sample.dipoles_expected.
Proof.
  assert (Hplain : forall l, no_marker l -> plain_line float_of_string l).
  { intros l (H1 & H2 & H3). split; [split; assumption|].
    rewrite H1. discriminate. }
  assert (Hspin : plain_line float_of_string Sample.spin_line).
  { split; [split; reflexivity|]. intros _.
    exists "2.0000000"%string, (Fin 2.0000000).
    split; vm_compute; reflexivity. }
  apply (laid_out_report_is_read float_of_string 2
           [Sample.spin_line; ""%string] [Sample.rule; ""%string]
           [Sample.rule; ""%string]
           [ "    1      -0.001    -0.002    -0.003     0.131     0.125";
             "    2      -0.500    -0.400    -0.300    -0.155    -1.355"
           ]%string
           [ "    1       1.000     2.000    -3.000     0.500     0.250    -0.750";
             "    2     283.547   167.119  -450.667   -28.734   -15.587    58.553"
           ]%string
           Sample.contact_header Sample.rule Sample.contact_titles Sample.rule
           Sample.dipole_header Sample.rule Sample.dipole_titles Sample.rule);
    try reflexivity.
  - constructor; [exact Hspin|]. constructor; [|constructor].
    apply Hplain. repeat split.
  - constructor; [|constructor; [|constructor]]; apply Hplain; repeat split.
  - constructor; [|constructor; [|constructor]]; apply Hplain; repeat split.
Defined.

(* ------------------------------------------------------------------ *)
(** * Reports without the dipolar table *)

Lemma traverse_length (A B : Type) (g : A -> result B) (l : list A)
  (vs : list B) :
  traverse g l = Ok vs -> List.length vs = List.length l.
Proof.
  revert vs. induction l as [|a l IH]; intros vs H; simpl in H.
  - now inversion H.
  - destruct (g a) as [b|e]; [|discriminate]. cbn [bind] in H.
    destruct (traverse g l) as [bs|e]; [|discriminate]. cbn [bind] in H.
    inversion H; subst. simpl. now rewrite (IH bs eq_refl).
Qed.

Section LayoutFacts.

Variable pyfloat : string -> option f64.
Variable natoms : nat.

Lemma on_totalspin_ok (line : string) (st : scan_state) :
  spin_ok pyfloat line ->
  exists st', on_totalspin pyfloat line st = Ok st' /\
              contacts st' = contacts st /\
              dipole_tensors st' = dipole_tensors st.
Proof.
  intros Hs. unfold spin_ok in Hs. unfold on_totalspin.
  destruct (re_totalspin line).
  - destruct (Hs eq_refl) as (tok & s & Htok & Hv).
    rewrite Htok. cbn [bind]. unfold float. rewrite Hv. cbn [bind].
    eexists. split; [reflexivity|]. split; reflexivity.
  - exists st. auto.
Qed.

(** The scan of a report of that layout reaches its end. *)
Lemma contact_layout_reaches (outcar : list string) (cs cs' : list f64) :
  contact_layout pyfloat natoms outcar cs cs' ->
  Forall (fun l => re_dipole l = false) outcar ->
  forall st, contacts st = cs -> List.length cs = natoms ->
  exists st', reaches pyfloat natoms outcar st [] st' /\
              contacts st' = cs' /\
              dipole_tensors st' = dipole_tensors st.
Proof.
  induction 1 as [cs
                 | line rest cs cs' Hc Hs _ IH
                 | hdr l1 l2 l3 rows rest vals cs cs' Hc Hs Hlen Hvals _ IH];
    intros Hno st Hst Hl.
  - exists st. split; [apply reaches_here | auto].
  - apply Forall_cons_iff in Hno. destruct Hno as [Hd Hno'].
    destruct (loop_body_plain pyfloat natoms line rest st)
      as (st1 & Hb & E1 & E2).
    { split; [split; assumption | exact Hs]. }
    destruct (IH Hno' st1 (eq_trans E1 Hst) Hl) as (st2 & Hr & E3 & E4).
    exists st2. split; [eapply reaches_next; eassumption|].
    split; congruence.
  - apply Forall_cons_iff in Hno. destruct Hno as [Hd Hno].
    do 3 (apply Forall_cons_iff in Hno; destruct Hno as [_ Hno]).
    apply Forall_app in Hno. destruct Hno as [_ Hno'].
    destruct (on_totalspin_ok hdr st Hs) as (st1 & Ht & E1 & E2).
    fold (contact_value pyfloat) in Hvals.
    assert (B : loop_body pyfloat natoms hdr
                  (l1 :: l2 :: l3 :: rows ++ rest) st
                = Ok (rest, State vals (dipole_tensors st1) (totalS st1))).
    { unfold loop_body. rewrite Ht. cbn [bind].
      rewrite on_contact_table by (try assumption; rewrite E1, Hst; exact Hl).
      rewrite Hvals. cbn [bind]. unfold on_dipole. now rewrite Hd. }
    destruct (IH Hno' (State vals (dipole_tensors st1) (totalS st1)) eq_refl)
      as (st2 & Hr & E3 & E4).
    { now rewrite (traverse_length _ _ _ _ _ Hvals). }
    exists st2. split; [eapply reaches_next; [exact B | exact Hr]|].
    split; [exact E3|]. rewrite E4. exact E2.
Qed.

End LayoutFacts.

(** C8 (as amended).  A report that contains no dipolar header and is
    well formed elsewhere -- every line with the total-spin marker ends
    in a number, every Fermi-contact header is followed by three lines
    and [natoms] rows that end in a number -- is read with success: the
    tensors returned are all zero, and the contacts are those of the last
    Fermi-contact table, or zero when the report has none. *)
Theorem no_dipolar_header_zero_tensors (pyfloat : string -> option f64)
  (natoms : nat) (outcar : list string) (cs : list f64) :
  Forall (fun l => re_dipole l = false) outcar ->
  contact_layout pyfloat natoms outcar (repeat zero natoms) cs ->
  exists st,
    extract pyfloat natoms outcar = Ok st /\
    contacts st = cs /\
    dipole_tensors st = repeat mzero natoms.
Proof.
  intros Hno Hlay.
  destruct (contact_layout_reaches pyfloat natoms outcar _ cs Hlay Hno
              (initial_state natoms) eq_refl (repeat_length _ _))
    as (st & Hr & Ec & Ed).
  exists st. split; [apply extract_ok_reaches; exact Hr|].
  split; [exact Ec | exact Ed].
Qed.

Lemma no_dipolar_header_zero_tensors_witness :
  exists st,
    extract float_of_string 2 Sample.outcar_contact_only = Ok st /\
    contacts st = Sample.contacts_expected /\
    dipole_tensors st = repeat mzero 2.
Proof.
  apply (no_dipolar_header_zero_tensors float_of_string 2
           Sample.outcar_contact_only Sample.contacts_expected).
  - repeat constructor.
  - unfold Sample.outcar_contact_only, Sample.contact_table. cbn [app].
    apply layout_line; [reflexivity | |].
    { intros _. exists "2.0000000"%string, (Fin 2.0000000).
      split; vm_compute; reflexivity. }
    apply layout_line;
      [reflexivity | intros H; vm_compute in H; discriminate H |].
    apply (@layout_table float_of_string 2
             Sample.contact_header Sample.rule Sample.contact_titles
             Sample.rule
             [ "    1      -0.001    -0.002    -0.003     0.131     0.125";
               "    2      -0.500    -0.400    -0.300    -0.155    -1.355"
             ]%string
             [Sample.rule; ""%string] Sample.contacts_expected);
      [ reflexivity | intros H; vm_compute in H; discriminate H
      | reflexivity | vm_compute; reflexivity |].
    apply layout_line;
      [reflexivity | intros H; vm_compute in H; discriminate H |].
    apply layout_line;
      [reflexivity | intros H; vm_compute in H; discriminate H |].
    apply layout_end.
Defined.

(** C8 as first stated does not hold for every report: a report without
    the dipolar header whose Fermi-contact table is cut short has no
    successful extraction. *)
Lemma no_dipolar_header_may_fail :
  Forall (fun l => re_dipole l = false) Sample.outcar_truncated /\
  extract float_of_string 2 Sample.outcar_truncated = Raise StopIteration.
Proof.
  split; [repeat constructor | vm_compute; reflexivity].
Qed.
